(** * release.py: the commit-to-version-bump engine of the release script

    A shallow embedding of [src/release.py] and the properties of its
    components: the commit normalizer ([Commit._normalize]), the bump
    evaluator ([evaluate_version_bump]), the changelog builder
    ([generate_changelog]), the changelog renderer ([markdown_changelog])
    and the orchestrator ([main]).

    Conventions of the embedding.
    - Python [str] is the [string] of the bytes of its UTF-8 encoding; a
      character is the one to four bytes the first of them announces.
    - The Unicode character database behind [str.upper], [str.capitalize],
      [str.strip] and the pattern [\d] is a parameter ([Py.Unicode]); what
      the statements need of it is its ASCII range ([ascii_laws]).
    - Python [int] is [Z].
    - The changelog is a Python [dict], whose iteration order is the order in
      which keys were first inserted: an association list ([Dict]).
    - [LEVELS] is a plain lookup table: a [gmap Z string].
    - An exception that leaves a function is a [Raise] result; the one
      exception the code catches, [UnknownCommitMessageStyleError], is the
      [None] answer of the commit parser.
    - What the code prints is returned next to its result. *)

From Stdlib Require Import ZArith List String Ascii Permutation Lia.
From stdpp Require Import base option list gmap strings pretty.

(** ** Python primitives used by the script *)

Module Py.

(** Exceptions that can leave the modelled functions. *)
Inductive exn : Type :=
| IndexError
| KeyError
| ValueError
| FileNotFoundError
| ErrorReturnCode
| HTTPException.

Inductive res (A : Type) : Type :=
| Ok (a : A)
| Raise (e : exn).
Arguments Ok {A} a.
Arguments Raise {A} e.

Definition bind {A B} (k : A -> res B) (m : res A) : res B :=
  match m with
  | Ok a => k a
  | Raise e => Raise e
  end.

#[global] Instance res_ret : MRet res := @Ok.
#[global] Instance res_bind : MBind res := @bind.

Definition CR : ascii := "013"%char.
Definition LF : ascii := "010"%char.

(** One-byte characters: the ASCII range. *)
Definition is_ascii (c : ascii) : bool := (nat_of_ascii c <? 128)%nat.

Definition is_lower (c : ascii) : bool :=
  let n := nat_of_ascii c in (97 <=? n)%nat && (n <=? 122)%nat.
Definition is_upper (c : ascii) : bool :=
  let n := nat_of_ascii c in (65 <=? n)%nat && (n <=? 90)%nat.

(** The case conversions, decimal digits and whitespace of the ASCII range. *)
Definition ascii_upper (c : ascii) : ascii :=
  if is_lower c then ascii_of_nat (nat_of_ascii c - 32) else c.
Definition ascii_lower (c : ascii) : ascii :=
  if is_upper c then ascii_of_nat (nat_of_ascii c + 32) else c.
Definition ascii_digit (c : ascii) : bool :=
  let n := nat_of_ascii c in (48 <=? n)%nat && (n <=? 57)%nat.
Definition ascii_space (c : ascii) : bool :=
  let n := nat_of_ascii c in
  ((9 <=? n)%nat && (n <=? 13)%nat) || ((28 <=? n)%nat && (n <=? 32)%nat).

Fixpoint str_map (f : ascii -> ascii) (s : string) : string :=
  match s with
  | EmptyString => EmptyString
  | String c r => String (f c) (str_map f r)
  end.

(** [s.capitalize()] of a string of the ASCII range: first character
    upper-cased, the rest lower-cased. *)
Definition ascii_capitalize (s : string) : string :=
  match s with
  | EmptyString => EmptyString
  | String c r => String (ascii_upper c) (str_map ascii_lower r)
  end.

(** [s.replace(old, new)] for one-character [old] and [new] of the ASCII
    range *)
Definition replace (old new : ascii) (s : string) : string :=
  str_map (fun c => if Ascii.eqb c old then new else c) s.

(** The first [n] bytes and what follows them; [s[:n]] when the first [n]
    characters of [s] are of the ASCII range. *)
Fixpoint str_take (n : nat) (s : string) : string :=
  match n, s with
  | S n', String c r => String c (str_take n' r)
  | _, _ => EmptyString
  end.

Fixpoint str_drop (n : nat) (s : string) : string :=
  match n, s with
  | S n', String _ r => str_drop n' r
  | _, _ => s
  end.

(** The number of bytes of the UTF-8 character whose first byte is [b]: one
    below 0xC0, two below 0xE0, three below 0xF0, four from there on. *)
Definition utf8_width (b : ascii) : nat :=
  let n := nat_of_ascii b in
  if (n <? 192)%nat then 1
  else if (n <? 224)%nat then 2
  else if (n <? 240)%nat then 3
  else 4.

(** The first character of a string, the empty string when there is none. *)
Definition first_char (s : string) : string :=
  match s with
  | EmptyString => EmptyString
  | String b _ => str_take (utf8_width b) s
  end.

(** [s[0]]: a one-character string, [IndexError] on the empty string *)
Definition str_head (s : string) : res string :=
  match s with
  | EmptyString => Raise IndexError
  | String _ _ => Ok (first_char s)
  end.

(** [s[1:]] *)
Definition str_tail (s : string) : string :=
  match s with
  | EmptyString => EmptyString
  | String b _ => str_drop (utf8_width b) s
  end.

(** The characters of a string, in order. *)
Fixpoint chars_upto (fuel : nat) (s : string) : list string :=
  match fuel, s with
  | S fuel', String _ _ => first_char s :: chars_upto fuel' (str_tail s)
  | _, _ => []
  end.

Definition chars (s : string) : list string := chars_upto (String.length s) s.

Definition str_concat (l : list string) : string :=
  fold_right String.append EmptyString l.

(** The part of the Unicode character database the script reaches:
    [s.upper()], [s.capitalize()], and for one character [c] whether [\d]
    matches it and whether [str.strip] removes it. *)
Record Unicode : Type := MkUnicode {
  str_upper : string -> string;
  str_capitalize : string -> string;
  is_decimal : string -> bool;
  is_whitespace : string -> bool
}.

Fixpoint drop_while {A} (f : A -> bool) (l : list A) : list A :=
  match l with
  | x :: l' => if f x then drop_while f l' else l
  | [] => []
  end.

(** [s.strip()] *)
Definition strip (U : Unicode) (s : string) : string :=
  str_concat
    (rev (drop_while (is_whitespace U)
       (rev (drop_while (is_whitespace U) (chars s))))).

(** [l[0]]: [IndexError] on the empty list *)
Definition list_head {A} (l : list A) : res A :=
  match l with
  | [] => Raise IndexError
  | x :: _ => Ok x
  end.

(** [max(x :: xs)] on integers *)
Definition max (x : Z) (xs : list Z) : Z := fold_left Z.max xs x.

End Py.

Import Py.

(** ** Python [dict] with string keys, in insertion order *)

Module Dict.

Definition t (V : Type) : Type := list (string * V).

(** [d.get(k)] / [d[k]] *)
Fixpoint get {V} (k : string) (d : t V) : option V :=
  match d with
  | [] => None
  | (k', v) :: d' => if String.eqb k k' then Some v else get k d'
  end.

(** [k in d] *)
Definition mem {V} (k : string) (d : t V) : bool :=
  match get k d with Some _ => true | None => false end.

(** [d[k] = v]: an existing key keeps its position, a new key goes last *)
Fixpoint set {V} (k : string) (v : V) (d : t V) : t V :=
  match d with
  | [] => [(k, v)]
  | (k', v') :: d' =>
      if String.eqb k k' then (k', v) :: d' else (k', v') :: set k v d'
  end.

(** [d[k].append(x)]: [KeyError] when [k] is missing *)
Definition append {A} (k : string) (x : A) (d : t (list A)) : res (t (list A)) :=
  match get k d with
  | Some l => Ok (set k (l ++ [x]) d)
  | None => Raise KeyError
  end.

Definition keys {V} (d : t V) : list string := map fst d.

End Dict.

(** ** Data model *)

(** [class Commit]: the constructor normalizes the message. *)
Record Commit : Type := MkCommit { sha : string; message : string }.

(** [Commit._normalize] *)
Definition _normalize (message : string) : string :=
  let message := Py.replace CR LF message in
  message.

(** [Commit.__init__] *)
Definition Commit__init__ (sha message : string) : Commit :=
  {| sha := sha; message := _normalize message |}.

(** [semantic_release.history.parser_helpers.ParsedCommit], the record a
    commit parser returns. *)
Record ParsedCommit : Type := MkParsedCommit {
  bump : Z;
  type : string;
  scope : option string;
  descriptions : list string;
  breaking_descriptions : list string
}.

(** A commit parser: [None] stands for [UnknownCommitMessageStyleError]. *)
Definition parser : Type := string -> option ParsedCommit.

(** An entry of the changelog: [(sha, description)]. *)
Definition entry : Type := (string * string)%type.

Definition changelog : Type := Dict.t (list entry).

(** ** The bump evaluator *)

Section Evaluator.

(** [semantic_release.history.logs.LEVELS], imported by the script. *)
Variable LEVELS : gmap Z string.
(** The [commit_parser] argument. *)
Variable commit_parser : parser.

(** One turn of the loop over [commits]; the state is
    [(changes, commit_count)]. *)
Definition bump_step (st : list Z * Z) (commit : Commit) : list Z * Z :=
  let '(changes, commit_count) := st in
  let commit_count := (commit_count + 1)%Z in
  match commit_parser (message commit) with
  | Some message => (changes ++ [bump message], commit_count)
  | None => (changes, commit_count)
  end.

Definition bump_loop (commits : list Commit) : list Z * Z :=
  fold_left bump_step commits ([], 0%Z).

(** [evaluate_version_bump]: the returned bump and the lines printed. *)
Definition evaluate_version_bump (commits : list Commit)
  : option string * list string :=
  let bump : option string := None in
  let '(changes, commit_count) := bump_loop commits in
  match changes with
  | [] => (bump, [])
  | c :: cs =>
      let level := Py.max c cs in
      match LEVELS !! level with
      | Some label => (Some label, [])
      | None => (bump, ["Unknown bump level " +:+ pretty level])
      end
  end.

End Evaluator.

(** ** The changelog builder *)

(** A loop whose body may raise: [for x in xs: acc = body(acc, x)]. *)
Fixpoint for_each {A S} (body : S -> A -> res S) (xs : list A) (acc : S) : res S :=
  match xs with
  | [] => Ok acc
  | x :: xs' => acc' ← body acc x; for_each body xs' acc'
  end.

Section Builder.

Variable U : Unicode.
(** The [commit_parser] argument. *)
Variable commit_parser : parser.

(** The body of the [try] block for a commit the parser accepted. *)
Definition changelog_add (changes : changelog) (commit : Commit)
    (message : ParsedCommit) : res changelog :=
  let changes :=
    if negb (Dict.mem (type message) changes)
    then Dict.set (type message) [] changes
    else changes in
  d0 ← Py.list_head (descriptions message);
  c0 ← Py.str_head d0;
  let capital_message := Py.str_upper U c0 +:+ Py.str_tail d0 in
  changes ← Dict.append (type message) (sha commit, capital_message) changes;
  match breaking_descriptions message with
  | _ :: _ =>
      for_each
        (fun changes paragraph =>
           Dict.append "breaking" (sha commit, paragraph) changes)
        (breaking_descriptions message) changes
  | [] =>
      if (bump message =? 3)%Z
      then d ← Py.list_head (descriptions message);
           Dict.append "breaking" (sha commit, d) changes
      else Ok changes
  end.

(** One turn of the loop over [commits]: a commit the parser rejects is
    passed over. *)
Definition changelog_step (changes : changelog) (commit : Commit)
  : res changelog :=
  match commit_parser (message commit) with
  | Some message => changelog_add changes commit message
  | None => Ok changes
  end.

(** [generate_changelog] *)
Definition generate_changelog (commits : list Commit) : res changelog :=
  let changes : changelog := [("breaking", [])] in
  for_each changelog_step commits changes.

End Builder.

(** ** The changelog renderer *)

Definition nl : string := String LF EmptyString.

(** The inner loop of [markdown_changelog]: one line per item. *)
Definition render_items (items : list entry) (output : string) : string :=
  fold_left
    (fun output item => output +:+ "* " +:+ snd item +:+ " (" +:+ fst item +:+ ")" +:+ nl)
    items output.

Section Renderer.

Variable U : Unicode.

(** One turn of the outer loop. *)
Definition render_section (output : string) (kv : string * list entry) : string :=
  let '(section, items) := kv in
  if (length items =? 0)%nat then output
  else
    let output := output +:+ nl +:+ "### " +:+ Py.str_capitalize U section +:+ nl in
    render_items items output.

(** [markdown_changelog] *)
Definition markdown_changelog (version : string) (changelog : changelog)
    (header : bool) : string :=
  let output := if header then "## v" +:+ version +:+ nl else "" in
  fold_left render_section changelog output.

End Renderer.

(** ** The orchestrator *)

Module Run.

(** More string primitives, used by [main] and [get_repo] only. *)

(** [a, b = s.split(sep, 1)]: [ValueError] when [sep] does not occur. *)
Fixpoint split1 (sep : ascii) (s : string) : res (string * string) :=
  match s with
  | EmptyString => Raise ValueError
  | String c r =>
      if Ascii.eqb c sep then Ok (EmptyString, r)
      else '(a, b) ← split1 sep r; Ok (String c a, b)
  end.

(** [s.split(sep)[0]] *)
Fixpoint first_field (sep : ascii) (s : string) : string :=
  match s with
  | EmptyString => EmptyString
  | String c r => if Ascii.eqb c sep then EmptyString else String c (first_field sep r)
  end.

(** [Commit.__str__]; a sha is a hexadecimal word, one byte a character. *)
Definition Commit__str__ (self : Commit) : string :=
  let message := first_field LF (message self) in
  "Commit(sha='" +:+ Py.str_take 8 (sha self) +:+ "', message='" +:+ message +:+ "')".

(** What the script asks of its collaborators, in order. *)
Inductive event : Type :=
| Getenv (name : string)
| ReadText (path : string)
| WriteText (path text : string)
| GitCmd (args : list string)
| GhGet (url : string)
| GhPost (url body tag_name : string)
| Sleep
| Print (text : string).

(** The events that change the version file, the repository or the forge. *)
Definition is_mutation (e : event) : bool :=
  match e with
  | WriteText _ _ => true
  | GhPost _ _ _ => true
  | GitCmd (cmd :: _) =>
      String.eqb cmd "add" || String.eqb cmd "commit"
      || String.eqb cmd "tag" || String.eqb cmd "push"
  | _ => false
  end.

(** The answers of the collaborators. [None] is a failing call. *)
Record World : Type := MkWorld {
  environ : gmap string string;
  file_text : string -> option string;
  git_output : list string -> option string;
  forge_items : string -> option (list (string * string));
  forge_tags : nat -> string -> option (list string);
  forge_accepts_release : bool
}.

(** How a run ends. *)
Inductive outcome (A : Type) : Type :=
| Returned (a : A)
| SysExit (status : Z)
| Uncaught (e : exn).
Arguments Returned {A} a.
Arguments SysExit {A} status.
Arguments Uncaught {A} e.

(** The exit status of the process. *)
Definition exit_status {A} (o : outcome A) : Z :=
  match o with
  | Returned _ => 0
  | SysExit status => status
  | Uncaught _ => 1
  end.

(** A computation extends the trace of events and ends in an outcome. *)
Definition M (A : Type) : Type := list event -> outcome A * list event.

Definition m_ret {A} (a : A) : M A := fun tr => (Returned a, tr).
Definition m_bind {A B} (k : A -> M B) (m : M A) : M B :=
  fun tr =>
    match m tr with
    | (Returned a, tr') => k a tr'
    | (SysExit n, tr') => (SysExit n, tr')
    | (Uncaught e, tr') => (Uncaught e, tr')
    end.

#[global] Instance M_ret : MRet M := @m_ret.
#[global] Instance M_bind : MBind M := @m_bind.

Definition emit (e : event) : M unit := fun tr => (Returned tt, tr ++ [e]).
Definition raise {A} (e : exn) : M A := fun tr => (Uncaught e, tr).
Definition sys_exit {A} (status : Z) : M A := fun tr => (SysExit status, tr).

Definition answer {A} (e : exn) (o : option A) : M A :=
  match o with
  | Some a => mret a
  | None => raise e
  end.

Definition of_res {A} (r : res A) : M A :=
  match r with
  | Ok a => mret a
  | Raise e => raise e
  end.

Definition print (text : string) : M unit := emit (Print text).

Fixpoint print_all (lines : list string) : M unit :=
  match lines with
  | [] => mret tt
  | l :: ls => print l;; print_all ls
  end.

Section Main.

(** The library the script imports: [LEVELS], [angular_parser] (the
    default commit parser) and [get_new_version]. *)
Variable U : Unicode.
Variable LEVELS : gmap Z string.
Variable angular_parser : parser.
Variable get_new_version : string -> string -> res string.

Variable w : World.

(** [os.environ[name]] *)
Definition environ_item (name : string) : M string :=
  emit (Getenv name);; answer KeyError (environ w !! name).

(** [os.environ.get(name, None)] *)
Definition environ_get (name : string) : M (option string) :=
  emit (Getenv name);; mret (environ w !! name).

(** [Path(path).read_text()] *)
Definition read_text (path : string) : M string :=
  emit (ReadText path);; answer FileNotFoundError (file_text w path).

(** [Path(path).write_text(text)] *)
Definition write_text (path text : string) : M unit :=
  emit (WriteText path text).

(** [git(...)]: the output of the command *)
Definition git (args : list string) : M string :=
  emit (GitCmd args);; answer ErrorReturnCode (git_output w args).

(** [get_repo] *)
Definition get_repo : M string :=
  repo ← environ_get "GITHUB_REPOSITORY";
  match repo with
  | Some repo => mret repo
  | None =>
      origin ← git ["remote"; "get-url"; "origin"];
      '(_, loc) ← of_res (split1 ":" origin);
      '(repo, _) ← of_res (split1 "." loc);
      mret repo
  end.

(** The [async for] loop of [main] over the listed items. *)
Fixpoint collect (tag_hash : string) (items : list (string * string))
    (commits : list Commit) : M (list Commit) :=
  match items with
  | [] => mret commits
  | (commit_hash, commit_message) :: items' =>
      if String.eqb commit_hash tag_hash then mret commits
      else
        let commit := Commit__init__ commit_hash commit_message in
        let commits := commits ++ [commit] in
        print ("- " +:+ Commit__str__ commit);;
        collect tag_hash items' commits
  end.

(** The loop [for _ in range(5)] that waits for the tag to show. *)
Fixpoint await_tag (repo next_tag : string) (turns attempt : nat) : M unit :=
  match turns with
  | O => mret tt
  | S turns' =>
      let url := "/repos/" +:+ repo +:+ "/tags" in
      all_tags ← (emit (GhGet url);; answer HTTPException (forge_tags w attempt url));
      if bool_decide (next_tag ∈ all_tags) then mret tt
      else emit Sleep;; await_tag repo next_tag turns' (S attempt)
  end.

(** [main] up to the end of the collection of commits: the current
    version, the repository and the commits since the last tag. *)
Definition gather : M (string * string * list Commit) :=
  token ← environ_item "GH_TOKEN";
  let version_file := "version_number" in
  current_version ← read_text version_file;
  out ← git ["rev-list"; "-n"; "1"; "v" +:+ current_version];
  let tag_hash := Py.strip U out in
  print ("current_version: " +:+ current_version +:+ " [" +:+ Py.str_take 8 tag_hash +:+ "]");;
  out ← git ["rev-parse"; "HEAD"];
  let sha := Py.strip U out in
  print ("sha: " +:+ sha);;
  repo ← get_repo;
  print ("repo: " +:+ repo);;
  let url := "/repos/" +:+ repo +:+ "/commits?sha=" +:+ sha in
  items ← (emit (GhGet url);; answer HTTPException (forge_items w url));
  commits ← collect tag_hash items [];
  mret (current_version, repo, commits).

(** [main] from the check of the number of commits on. *)
Definition release (current_version repo : string) (commits : list Commit)
  : M unit :=
  let version_file := "version_number" in
  if (100 <? length commits)%nat then
    print (pretty (length commits) +:+ " are a lot. Aborting!");;
    sys_exit 1
  else
    let '(bump, printed) := evaluate_version_bump LEVELS angular_parser commits in
    print_all printed;;
    print ("bump: " +:+ default "None" bump);;
    match bump with
    | None => print "-> nothing to do";; mret tt
    | Some bump =>
        next_version ← of_res (get_new_version current_version bump);
        print ("next version: " +:+ next_version);;
        let next_tag := "v" +:+ next_version in
        changes ← of_res (generate_changelog U angular_parser commits);
        let md := markdown_changelog U next_version changes true in
        print md;;
        write_text version_file next_version;;
        git ["add"; version_file];;
        git ["commit"; "-m"; "Bump to version " +:+ next_tag];;
        git ["tag"; next_tag];;
        git ["push"; "--follow-tags"];;
        await_tag repo next_tag 5 0;;
        let url := "/repos/" +:+ repo +:+ "/releases" in
        emit (GhPost url md next_tag);;
        if forge_accepts_release w then mret tt else raise HTTPException
    end.

(** [main] *)
Definition main : M unit :=
  '(current_version, repo, commits) ← gather;
  release current_version repo commits.

End Main.

End Run.

(** ** The version of the nearest tag *)

Module Describe.

Section Pattern.

Variable U : Py.Unicode.

(** The longest run of decimal digits at the head of a string, and what
    follows it: the greedy [\d*]. In a [str] pattern [\d] matches every
    character of Unicode's category of decimal digits. *)
Fixpoint digits_upto (fuel : nat) (s : string) : string * string :=
  match fuel, s with
  | S fuel', String _ _ =>
      let c := Py.first_char s in
      if Py.is_decimal U c
      then let '(d, rest) := digits_upto fuel' (Py.str_tail s) in (c +:+ d, rest)
      else (EmptyString, s)
  | _, _ => (EmptyString, s)
  end.

Definition digits (s : string) : string * string :=
  digits_upto (String.length s) s.

(** [\d+]: a run of at least one digit. *)
Definition digits1 (s : string) : option (string * string) :=
  match digits s with
  | (EmptyString, _) => None
  | (d, rest) => Some (d, rest)
  end.

(** A literal character of the pattern. *)
Definition literal (c : ascii) (s : string) : option string :=
  match s with
  | String c' r => if Ascii.eqb c' c then Some r else None
  | EmptyString => None
  end.

(** [re.match(r"v(\d+\.\d+\.\d+)", raw)]: the first group of the match at the
    head of [raw], [None] when there is no match. Each [\d+] takes the
    longest run of digits: a shorter run would leave a digit where the
    pattern asks for a dot. *)
Definition match_version (raw : string) : option string :=
  r ← literal "v" raw;
  '(d1, r) ← digits1 r;
  r ← literal "." r;
  '(d2, r) ← digits1 r;
  r ← literal "." r;
  '(d3, _) ← digits1 r;
  Some (d1 +:+ "." +:+ d2 +:+ "." +:+ d3).

End Pattern.

(** How [get_current_version] ends: [m.group(1)] on no match is an
    [AttributeError], a failing [git describe] an [ErrorReturnCode]. *)
Inductive outcome : Type :=
| Version (v : string)
| AttributeError
| ErrorReturnCode.

(** [get_current_version]: the outcome, and the call it makes. *)
Definition get_current_version (U : Py.Unicode) (w : Run.World)
  : outcome * list Run.event :=
  (match Run.git_output w ["describe"] with
   | None => ErrorReturnCode
   | Some described =>
       let raw := Run.first_field "-" described in
       match match_version U raw with
       | Some v => Version v
       | None => AttributeError
       end
   end,
   [Run.GitCmd ["describe"]]).

End Describe.

(** ** Vocabulary of the statements *)

(** The severities of the commits the parser accepts, in input order. *)
Definition parsed_bumps (p : parser) (commits : list Commit) : list Z :=
  omap (fun c => bump <$> p (message c)) commits.

(** The first description of a parsed commit exists and is not empty. *)
Definition has_summary (m : ParsedCommit) : bool :=
  match descriptions m with
  | String _ _ :: _ => true
  | _ => false
  end.

(** The evaluator as section 4.3 of the specification words its edge case:
    every severity outside [LEVELS] is reported and dropped, and the result
    is the label of the highest severity that is left. *)
Definition spec_evaluate_version_bump (LEVELS : gmap Z string) (p : parser)
    (commits : list Commit) : option string * list string :=
  let changes := parsed_bumps p commits in
  let mapped := filter (fun b => is_Some (LEVELS !! b)) changes in
  let unmapped := filter (fun b => LEVELS !! b = None) changes in
  (match mapped with
   | [] => None
   | b :: bs => LEVELS !! Py.max b bs
   end,
   (fun b => "Unknown bump level " +:+ pretty b) <$> unmapped).

(** Every byte of a string is of the ASCII range. *)
Definition ascii_only (s : string) : bool :=
  forallb Py.is_ascii (list_ascii_of_string s).

(** A string is one character. *)
Definition is_char (s : string) : bool :=
  match s with
  | EmptyString => false
  | String b _ => (String.length s =? Py.utf8_width b)%nat
  end.

(** What Python's Unicode tables do on the ASCII range. *)
Record ascii_laws (U : Py.Unicode) : Prop := {
  upper_ascii : forall b,
    Py.is_ascii b = true ->
    Py.str_upper U (String b EmptyString) = String (Py.ascii_upper b) EmptyString;
  capitalize_ascii : forall s,
    ascii_only s = true -> Py.str_capitalize U s = Py.ascii_capitalize s;
  decimal_ascii : forall b,
    Py.is_ascii b = true ->
    Py.is_decimal U (String b EmptyString) = Py.ascii_digit b;
  whitespace_ascii : forall b,
    Py.is_ascii b = true ->
    Py.is_whitespace U (String b EmptyString) = Py.ascii_space b
}.

(** The section header as section 4.5 of the specification words it: the key
    with its first letter upper-cased and the rest as it is. *)
Definition spec_section_header (U : Py.Unicode) (key : string) : string :=
  match key with
  | EmptyString => EmptyString
  | String _ _ => Py.str_upper U (Py.first_char key) +:+ Py.str_tail key
  end.

(** The first description with its first character upper-cased. *)
Definition capitalized (U : Py.Unicode) (m : ParsedCommit) : string :=
  match descriptions m with
  | (String _ _ as d) :: _ => Py.str_upper U (Py.first_char d) +:+ Py.str_tail d
  | _ => EmptyString
  end.

(** What one parsed commit adds to the list of the key "breaking" by its
    breaking paragraphs or its severity. *)
Definition breaking_entries (c : Commit) (m : ParsedCommit) : list entry :=
  match breaking_descriptions m with
  | _ :: _ => map (pair (sha c)) (breaking_descriptions m)
  | [] => if (bump m =? 3)%Z then [(sha c, hd EmptyString (descriptions m))] else []
  end.

(** What one parsed commit adds to the list of the key [k]. *)
Definition additions (U : Py.Unicode) (k : string) (c : Commit)
    (m : ParsedCommit) : list entry :=
  (if decide (k = type m) then [(sha c, capitalized U m)] else [])
  ++ (if decide (k = "breaking") then breaking_entries c m else []).

(** What a sequence of commits adds to the list of the key [k]. *)
Definition all_additions (U : Py.Unicode) (p : parser) (k : string)
    (commits : list Commit) : list entry :=
  flat_map
    (fun c => match p (message c) with
              | Some m => additions U k c m
              | None => []
              end)
    commits.

(** The types of the commits the parser accepts. *)
Definition parsed_types (p : parser) (commits : list Commit) : list string :=
  omap (fun c => type <$> p (message c)) commits.

(** The concatenation of a list of strings. *)
Definition str_join (l : list string) : string := foldr String.append EmptyString l.

(** A computation that, from any trace, adds no mutation to it. *)
Definition quiet {A} (m : Run.M A) : Prop :=
  forall tr, exists evs,
    (m tr).2 = tr ++ evs /\ Forall (fun e => Run.is_mutation e = false) evs.

(** The mutations of a trace, in order. *)
Definition mutations (tr : list Run.event) : list Run.event :=
  List.filter Run.is_mutation tr.

(** The mutations of a complete release, in the order of the script. *)
Definition release_script (next_version md repo : string) : list Run.event :=
  [Run.WriteText "version_number" next_version;
   Run.GitCmd ["add"; "version_number"];
   Run.GitCmd ["commit"; "-m"; "Bump to version " +:+ "v" +:+ next_version];
   Run.GitCmd ["tag"; "v" +:+ next_version];
   Run.GitCmd ["push"; "--follow-tags"];
   Run.GhPost ("/repos/" +:+ repo +:+ "/releases") md ("v" +:+ next_version)].

(** A computation whose mutations, from any trace, are a prefix of [script],
    and the whole of it when the computation returns. *)
Definition performs {A} (m : Run.M A) (script : list Run.event) : Prop :=
  forall tr, exists evs,
    (m tr).2 = tr ++ evs
    /\ mutations evs `prefix_of` script
    /\ forall a, (m tr).1 = Run.Returned a -> mutations evs = script.

(** A string of the ASCII range without whitespace. *)
Definition ascii_word (s : string) : bool :=
  forallb (fun b => Py.is_ascii b && negb (Py.ascii_space b))
    (list_ascii_of_string s).

(** A string of ASCII whitespace. *)
Definition ascii_blank (s : string) : bool :=
  forallb Py.ascii_space (list_ascii_of_string s).

(** A string of the digits 0 to 9. *)
Definition ascii_digits (s : string) : bool :=
  forallb Py.ascii_digit (list_ascii_of_string s).

(** Every character of a string is a decimal digit. *)
Definition all_decimal (U : Py.Unicode) (d : string) : bool :=
  forallb (Py.is_decimal U) (Py.chars d).

(** A string does not begin with a decimal digit. *)
Definition no_digit_ahead (U : Py.Unicode) (s : string) : bool :=
  match s with
  | String _ _ => negb (Py.is_decimal U (Py.first_char s))
  | EmptyString => true
  end.

(** The character [c] occurs in [s]. *)
Definition occurs (c : ascii) (s : string) : Prop :=
  In c (list_ascii_of_string s).

(** Concrete inputs for the examples. *)
Module Sample.

(** Unicode tables cut down to the ASCII range: characters above it have
    no case, and are neither digits nor whitespace. *)
Definition U : Py.Unicode :=
  {| Py.str_upper := Py.str_map Py.ascii_upper;
     Py.str_capitalize := Py.ascii_capitalize;
     Py.is_decimal := fun c =>
       match c with
       | String b EmptyString => Py.ascii_digit b
       | _ => false
       end;
     Py.is_whitespace := fun c =>
       match c with
       | String b EmptyString => Py.ascii_space b
       | _ => false
       end |}.

(** The letter e with an acute accent, small and capital, in UTF-8. *)
Definition e_acute : string := String "195" (String "169" EmptyString).
Definition E_acute : string := String "195" (String "137" EmptyString).

(** Tables that know one letter above the ASCII range, and how to
    capitalize one word that begins with it. *)
Definition U_latin : Py.Unicode :=
  {| Py.str_upper := fun s =>
       if String.eqb s e_acute then E_acute else Py.str_map Py.ascii_upper s;
     Py.str_capitalize := fun s =>
       if String.eqb s (e_acute +:+ "COLE") then E_acute +:+ "cole"
       else Py.ascii_capitalize s;
     Py.is_decimal := Py.is_decimal U;
     Py.is_whitespace := Py.is_whitespace U |}.

(** The Arabic-Indic digit three (U+0663) in UTF-8, and tables that know it
    for a decimal digit. *)
Definition arabic_three : string := String "217" (String "163" EmptyString).

Definition U_digits : Py.Unicode :=
  {| Py.str_upper := Py.str_upper U;
     Py.str_capitalize := Py.str_capitalize U;
     Py.is_decimal := fun c => String.eqb c arabic_three || Py.is_decimal U c;
     Py.is_whitespace := Py.is_whitespace U |}.

(** The table of [semantic_release.history.logs]. *)
Definition LEVELS : gmap Z string :=
  {[ 1%Z := "patch"; 2%Z := "minor"; 3%Z := "major" ]}.

(** A parser given by a table from messages to records. *)
Definition table_parser (t : list (string * ParsedCommit)) : parser :=
  fun msg => snd <$> List.find (fun kv => String.eqb (fst kv) msg) t.

Definition feat : ParsedCommit :=
  MkParsedCommit 2 "feature" None ["add login"] [].
Definition fix_typo : ParsedCommit :=
  MkParsedCommit 1 "fix" None ["typo"] [].
Definition chore : ParsedCommit :=
  MkParsedCommit 0 "chore" None ["cleanup"] [].
Definition bang : ParsedCommit :=
  MkParsedCommit 3 "feature" None ["remove old API"] [].
Definition trailer : ParsedCommit :=
  MkParsedCommit 3 "feature" None
    ["remove old API"; "BREAKING CHANGE: old API removed"] ["old API removed"].
Definition odd : ParsedCommit :=
  MkParsedCommit 4 "feature" None ["rewrite"] [].
Definition reserved : ParsedCommit :=
  MkParsedCommit 0 "breaking" None ["tidy"] [].
Definition blank : ParsedCommit :=
  MkParsedCommit 1 "fix" None [""] [].

Definition p : parser :=
  table_parser
    [("feat: add login", feat); ("fix: typo", fix_typo);
     ("chore: cleanup", chore); ("feat!: remove old API", bang);
     ("feat: remove old API", trailer); ("feat: rewrite", odd);
     ("breaking: tidy", reserved); ("fix: ", blank)].

Definition c_feat : Commit := MkCommit "a1" "feat: add login".
Definition c_fix : Commit := MkCommit "b2" "fix: typo".
Definition c_chore : Commit := MkCommit "c3" "chore: cleanup".
Definition c_bang : Commit := MkCommit "d4" "feat!: remove old API".
Definition c_trailer : Commit := MkCommit "e5" "feat: remove old API".
Definition c_odd : Commit := MkCommit "f6" "feat: rewrite".
Definition c_reserved : Commit := MkCommit "a7" "breaking: tidy".
Definition c_blank : Commit := MkCommit "b8" "fix: ".
Definition c_merge : Commit := MkCommit "c9" "Merge branch 'main'".

(** A commit whose description begins with a two-byte character. *)
Definition ete : ParsedCommit :=
  MkParsedCommit 1 "fix" None [e_acute +:+ "t" +:+ e_acute +:+ " fini"] [].
Definition c_ete : Commit :=
  MkCommit "d0" ("fix: " +:+ e_acute +:+ "t" +:+ e_acute +:+ " fini").
Definition p_latin : parser :=
  table_parser [("fix: typo", fix_typo); (message c_ete, ete)].

(** A version calculator that bumps the minor component of 1.2.3. *)
Definition get_new_version (current_version bump : string) : res string :=
  if String.eqb current_version "1.2.3" && String.eqb bump "minor"
  then Ok "1.3.0" else Raise ValueError.

Definition tag_hash : string := "aaaabbbbccccdddd".
Definition head_hash : string := "eeeeffff00001111".

(** A world whose forge lists [n] commits "feat: add login" before the
    tagged commit. *)
Definition world (n : nat) : Run.World :=
  {| Run.environ := {[ "GH_TOKEN" := "secret"; "GITHUB_REPOSITORY" := "acts/rt" ]};
     Run.file_text := fun path =>
       if String.eqb path "version_number" then Some "1.2.3" else None;
     Run.git_output := fun args =>
       match args with
       | "rev-list" :: _ => Some (tag_hash +:+ nl)
       | "rev-parse" :: _ => Some (head_hash +:+ nl)
       | _ => Some EmptyString
       end;
     Run.forge_items := fun _ =>
       Some (replicate n ("0123456789abcdef", "feat: add login") ++ [(tag_hash, "old")]);
     Run.forge_tags := fun attempt _ =>
       if (attempt <? 2)%nat then Some [] else Some ["v1.3.0"];
     Run.forge_accepts_release := true |}.

End Sample.

(** More worlds for the examples. *)
Module SampleRun.

(** A world without [GITHUB_REPOSITORY], whose origin is an ssh address and
    whose nearest tag is three commits back. *)
Definition world_ssh : Run.World :=
  {| Run.environ := {[ "GH_TOKEN" := "secret" ]};
     Run.file_text := fun path =>
       if String.eqb path "version_number" then Some "1.2.3" else None;
     Run.git_output := fun args =>
       match args with
       | "rev-list" :: _ => Some (Sample.tag_hash +:+ nl)
       | "rev-parse" :: _ => Some (Sample.head_hash +:+ nl)
       | "remote" :: _ => Some ("git@github.com:acts-project/release-test.git" +:+ nl)
       | "describe" :: _ => Some ("v1.2.3-3-g0123abc" +:+ nl)
       | _ => Some EmptyString
       end;
     Run.forge_items := fun _ => Some [];
     Run.forge_tags := fun _ _ => Some [];
     Run.forge_accepts_release := true |}.

(** A world whose forge lists a chore, then a merge commit, then the tag. *)
Definition world_chore : Run.World :=
  {| Run.environ := {[ "GH_TOKEN" := "secret"; "GITHUB_REPOSITORY" := "acts/rt" ]};
     Run.file_text := fun path =>
       if String.eqb path "version_number" then Some "1.2.3" else None;
     Run.git_output := fun args =>
       match args with
       | "rev-list" :: _ => Some (Sample.tag_hash +:+ nl)
       | "rev-parse" :: _ => Some (Sample.head_hash +:+ nl)
       | _ => Some EmptyString
       end;
     Run.forge_items := fun _ =>
       Some [("c3", "chore: cleanup"); ("c9", "Merge branch 'main'");
             (Sample.tag_hash, "old")];
     Run.forge_tags := fun _ _ => Some [];
     Run.forge_accepts_release := true |}.

(** A world with one commit whose first description is empty. *)
Definition world_blank : Run.World :=
  {| Run.environ := {[ "GH_TOKEN" := "secret"; "GITHUB_REPOSITORY" := "acts/rt" ]};
     Run.file_text := fun path =>
       if String.eqb path "version_number" then Some "1.2.3" else None;
     Run.git_output := fun args =>
       match args with
       | "rev-list" :: _ => Some (Sample.tag_hash +:+ nl)
       | "rev-parse" :: _ => Some (Sample.head_hash +:+ nl)
       | _ => Some EmptyString
       end;
     Run.forge_items := fun _ => Some [("b8", "fix: "); (Sample.tag_hash, "old")];
     Run.forge_tags := fun _ _ => Some [];
     Run.forge_accepts_release := true |}.

(** A world without [GITHUB_REPOSITORY] whose origin is a local path. *)
Definition world_local : Run.World :=
  {| Run.environ := {[ "GH_TOKEN" := "secret" ]};
     Run.file_text := fun path =>
       if String.eqb path "version_number" then Some "1.2.3" else None;
     Run.git_output := fun args =>
       match args with
       | "remote" :: _ => Some ("/srv/git/release-test.git" +:+ nl)
       | _ => Some EmptyString
       end;
     Run.forge_items := fun _ => Some [];
     Run.forge_tags := fun _ _ => Some [];
     Run.forge_accepts_release := true |}.

(** A version calculator for 1.2.3 that knows the three labels. *)
Definition next_version (current_version bump : string) : res string :=
  if negb (String.eqb current_version "1.2.3") then Raise ValueError
  else if String.eqb bump "patch" then Ok "1.2.4"
  else if String.eqb bump "minor" then Ok "1.3.0"
  else if String.eqb bump "major" then Ok "2.0.0"
  else Raise ValueError.

(** A world in which the pushed tag never shows and the forge lists one
    feature commit before the tag. *)
Definition world_unseen : Run.World :=
  {| Run.environ := {[ "GH_TOKEN" := "secret"; "GITHUB_REPOSITORY" := "acts/rt" ]};
     Run.file_text := fun path =>
       if String.eqb path "version_number" then Some "1.2.3" else None;
     Run.git_output := fun args =>
       match args with
       | "rev-list" :: _ => Some (Sample.tag_hash +:+ nl)
       | "rev-parse" :: _ => Some (Sample.head_hash +:+ nl)
       | _ => Some EmptyString
       end;
     Run.forge_items := fun _ =>
       Some [("a1", "feat: add login"); (Sample.tag_hash, "old")];
     Run.forge_tags := fun _ _ => Some ["v1.2.3"];
     Run.forge_accepts_release := true |}.

End SampleRun.

(** ** Strings and their characters *)

Lemma str_app_cons (x : ascii) (a b : string) :
  String x a +:+ b = String x (a +:+ b).
Proof. reflexivity. Qed.

Lemma str_app_nil_l (b : string) : EmptyString +:+ b = b.
Proof. reflexivity. Qed.

Lemma str_app_assoc (a b c : string) : (a +:+ b) +:+ c = a +:+ b +:+ c.
Proof.
  induction a as [|x a IH]; [by rewrite !str_app_nil_l|].
  by rewrite !str_app_cons, IH.
Qed.

Lemma str_app_nil_r (a : string) : a +:+ EmptyString = a.
Proof.
  induction a as [|x a IH]; [done|]. by rewrite str_app_cons, IH.
Qed.

Lemma str_take_drop (n : nat) (s : string) :
  Py.str_take n s +:+ Py.str_drop n s = s.
Proof.
  revert s. induction n as [|n IH]; intros [|c r]; simpl; try done.
  by rewrite str_app_cons, IH.
Qed.

(** A string is its first character followed by the rest. *)
Lemma first_char_tail (s : string) : Py.first_char s +:+ Py.str_tail s = s.
Proof. destruct s as [|b r]; [done|]. apply str_take_drop. Qed.

Lemma utf8_width_pos (b : ascii) : (1 <= Py.utf8_width b)%nat.
Proof.
  unfold Py.utf8_width. cbv zeta.
  repeat match goal with |- context [if ?c then _ else _] => destruct c end; lia.
Qed.

Lemma str_drop_length (n : nat) (s : string) :
  (String.length (Py.str_drop n s) <= String.length s - n)%nat.
Proof.
  revert s. induction n as [|n IH]; intros [|c r]; simpl; try lia. apply IH.
Qed.

Lemma str_tail_length (b : ascii) (r : string) :
  (String.length (Py.str_tail (String b r)) <= String.length r)%nat.
Proof.
  unfold Py.str_tail. pose proof (utf8_width_pos b) as Hw.
  destruct (Py.utf8_width b) as [|n]; [lia|].
  simpl. pose proof (str_drop_length n r). lia.
Qed.

Lemma str_take_all (n : nat) (s : string) :
  (String.length s <= n)%nat -> Py.str_take n s = s.
Proof.
  revert s. induction n as [|n IH]; intros [|c r]; simpl; try done; try lia.
  intros H. rewrite IH; [done|lia].
Qed.

Lemma str_drop_all (n : nat) (s : string) :
  (String.length s <= n)%nat -> Py.str_drop n s = EmptyString.
Proof.
  revert s. induction n as [|n IH]; intros [|c r]; simpl; try done; try lia.
  intros H. apply IH. lia.
Qed.

Lemma str_take_drop_app (n : nat) (s x : string) :
  (n <= String.length s)%nat ->
  Py.str_take n (Py.str_take n s +:+ x) = Py.str_take n s
  /\ Py.str_drop n (Py.str_take n s +:+ x) = x.
Proof.
  revert s. induction n as [|n IH]; intros [|c r]; simpl; try lia.
  - intros _. rewrite str_app_nil_l. by destruct x.
  - intros _. rewrite str_app_nil_l. by destruct x.
  - intros H. destruct (IH r) as [-> ->]; [lia|done].
Qed.

(** A character put back in front of a prefix of what followed it is the
    first character of the result. *)
Lemma first_char_app (b : ascii) (r d x : string) :
  Py.str_tail (String b r) = d +:+ x ->
  Py.first_char (Py.first_char (String b r) +:+ d) = Py.first_char (String b r)
  /\ Py.str_tail (Py.first_char (String b r) +:+ d) = d.
Proof.
  intros Htail. pose proof (utf8_width_pos b) as Hw.
  assert (Hhead : forall y,
            Py.first_char (Py.first_char (String b r) +:+ y)
            = Py.str_take (Py.utf8_width b) (Py.first_char (String b r) +:+ y)
            /\ Py.str_tail (Py.first_char (String b r) +:+ y)
               = Py.str_drop (Py.utf8_width b) (Py.first_char (String b r) +:+ y)).
  { intros y.
    assert (Hc : exists t, Py.first_char (String b r) = String b t).
    { unfold Py.first_char. destruct (Py.utf8_width b); [lia|]. simpl. eauto. }
    destruct Hc as [t ->]. by rewrite str_app_cons. }
  destruct (Hhead d) as [-> ->]. unfold Py.first_char.
  destruct (le_lt_dec (Py.utf8_width b) (String.length (String b r))) as [Hle|Hlt].
  - by apply str_take_drop_app.
  - unfold Py.str_tail in Htail. rewrite str_drop_all in Htail by lia.
    destruct d; [|done]. rewrite str_app_nil_r.
    rewrite (str_take_all _ (String b r)) by lia.
    split; [apply str_take_all | apply str_drop_all]; lia.
Qed.

Lemma chars_upto_fuel (n m : nat) (s : string) :
  (String.length s <= n)%nat -> (String.length s <= m)%nat ->
  Py.chars_upto n s = Py.chars_upto m s.
Proof.
  revert m s. induction n as [|n IH]; intros m s Hn Hm.
  - destruct s; [by destruct m | simpl in Hn; lia].
  - destruct s as [|b r]; [by destruct m|].
    destruct m as [|m]; [simpl in Hm; lia|].
    change (Py.first_char (String b r) :: Py.chars_upto n (Py.str_tail (String b r))
            = Py.first_char (String b r) :: Py.chars_upto m (Py.str_tail (String b r))).
    pose proof (str_tail_length b r). simpl in Hn, Hm.
    f_equal. apply IH; lia.
Qed.

(** The characters of a non-empty string are its first character and the
    characters of the rest. *)
Lemma chars_cons (b : ascii) (r : string) :
  Py.chars (String b r)
  = Py.first_char (String b r) :: Py.chars (Py.str_tail (String b r)).
Proof.
  unfold Py.chars.
  change (Py.chars_upto (String.length (String b r)) (String b r))
    with (Py.first_char (String b r)
          :: Py.chars_upto (String.length r) (Py.str_tail (String b r))).
  f_equal. apply chars_upto_fuel; [apply str_tail_length|done].
Qed.

Lemma utf8_width_ascii (a : ascii) :
  Py.is_ascii a = true -> Py.utf8_width a = 1%nat.
Proof.
  unfold Py.is_ascii, Py.utf8_width. intros H%Nat.ltb_lt. cbv zeta.
  destruct (Nat.ltb_spec (nat_of_ascii a) 192); [done|lia].
Qed.

Lemma first_char_ascii (a : ascii) (r : string) :
  Py.is_ascii a = true -> Py.first_char (String a r) = String a EmptyString.
Proof.
  intros Ha. unfold Py.first_char. rewrite (utf8_width_ascii a Ha).
  simpl. by destruct r.
Qed.

Lemma str_tail_ascii (a : ascii) (r : string) :
  Py.is_ascii a = true -> Py.str_tail (String a r) = r.
Proof.
  intros Ha. unfold Py.str_tail. by rewrite (utf8_width_ascii a Ha).
Qed.

(** On a first character of the ASCII range, [d[0].upper() + d[1:]] is that
    character upper-cased, followed by the rest. *)
Lemma capital_ascii (U : Py.Unicode) (a : ascii) (r : string) :
  ascii_laws U -> Py.is_ascii a = true ->
  Py.str_upper U (Py.first_char (String a r)) +:+ Py.str_tail (String a r)
  = String (Py.ascii_upper a) r.
Proof.
  intros HU Ha.
  by rewrite (first_char_ascii a r Ha), (str_tail_ascii a r Ha), (upper_ascii U HU a Ha).
Qed.

Lemma sample_laws : ascii_laws Sample.U.
Proof. by split. Qed.

Lemma latin_laws : ascii_laws Sample.U_latin.
Proof.
  split; try done.
  - intros b _. simpl. by destruct (Ascii.eqb b "195").
  - intros [|b s] Hs; [done|]. unfold ascii_only in Hs. simpl in Hs.
    apply andb_true_iff in Hs as [Hb _].
    simpl. destruct (Ascii.eqb_spec b "195") as [->|]; done.
Qed.

(** ** The commit normalizer *)

Lemma str_map_length f s : String.length (Py.str_map f s) = String.length s.
Proof. induction s as [|c r IH]; simpl; congruence. Qed.

Lemma str_map_get f s i :
  String.get i (Py.str_map f s) = f <$> String.get i s.
Proof.
  revert i; induction s as [|c r IH]; intros i; simpl; [done|].
  destruct i; simpl; auto.
Qed.

Lemma replace_absent old new s :
  old <> new -> ~ In old (list_ascii_of_string (Py.replace old new s)).
Proof.
  intros Hne. unfold Py.replace.
  induction s as [|c r IH]; simpl; [tauto|].
  intros [H|H]; [|tauto].
  destruct (Ascii.eqb_spec c old); congruence.
Qed.

(** C9. The message of a constructed commit holds no carriage return, and the
    constructor is a total function: it keeps the sha and the length of the
    message, and changes no character other than a carriage return, which
    becomes a line feed. *)
Theorem normalize_no_carriage_return (raw_sha raw_message : string) :
  let c := Commit__init__ raw_sha raw_message in
  ~ In Py.CR (list_ascii_of_string (message c))
  /\ sha c = raw_sha
  /\ String.length (message c) = String.length raw_message
  /\ forall i, String.get i (message c)
       = (fun ch => if Ascii.eqb ch Py.CR then Py.LF else ch) <$> String.get i raw_message.
Proof.
  simpl. unfold _normalize. repeat split.
  - apply replace_absent. discriminate.
  - apply str_map_length.
  - intros i. apply str_map_get.
Qed.

Example normalize_crlf :
  message (Commit__init__ "a1" ("fix: x" +:+ String Py.CR (String Py.LF "body")))
  = "fix: x" +:+ String Py.LF (String Py.LF "body").
Proof. reflexivity. Qed.

(** ** The bump evaluator *)

Section EvaluatorFacts.

Variable LEVELS : gmap Z string.
Variable p : parser.

Lemma bump_loop_from commits acc n :
  fold_left (bump_step p) commits (acc, n)
  = (acc ++ parsed_bumps p commits, (n + Z.of_nat (length commits))%Z).
Proof.
  revert acc n. induction commits as [|c cs IH]; intros acc n; simpl.
  - rewrite app_nil_r. f_equal. lia.
  - unfold parsed_bumps in *. simpl.
    destruct (p (message c)) as [m|]; simpl; rewrite IH.
    + rewrite <- app_assoc. simpl. f_equal. lia.
    + f_equal. lia.
Qed.

(** The loop collects the parsed severities and counts every commit. *)
Lemma bump_loop_spec commits :
  bump_loop p commits = (parsed_bumps p commits, Z.of_nat (length commits)).
Proof. unfold bump_loop. rewrite bump_loop_from. done. Qed.

Lemma max_ge_init x xs : (x <= Py.max x xs)%Z.
Proof.
  unfold Py.max. revert x. induction xs as [|y ys IH]; intros x; simpl; [lia|].
  specialize (IH (Z.max x y)). lia.
Qed.

Lemma max_upper_bound x xs y : y ∈ x :: xs -> (y <= Py.max x xs)%Z.
Proof.
  unfold Py.max. revert x. induction xs as [|z zs IH]; intros x Hy; simpl.
  - apply list_elem_of_singleton in Hy. lia.
  - pose proof (max_ge_init (Z.max x z) zs) as Hge. unfold Py.max in Hge.
    apply elem_of_cons in Hy as [Hy|Hy]; [lia|].
    apply elem_of_cons in Hy as [Hy|Hy]; [lia|].
    apply IH. by right.
Qed.

Lemma max_is_element x xs : Py.max x xs ∈ x :: xs.
Proof.
  unfold Py.max. revert x. induction xs as [|y ys IH]; intros x; simpl.
  - left.
  - specialize (IH (Z.max x y)).
    apply elem_of_cons in IH as [->|IH].
    + destruct (Z.max_spec x y) as [[_ ->]|[_ ->]]; [right; left|left].
    + right; right; done.
Qed.

(** [max] is the one element that bounds the others. *)
Lemma max_unique x xs m :
  m ∈ x :: xs -> (forall y, y ∈ x :: xs -> (y <= m)%Z) -> Py.max x xs = m.
Proof.
  intros Hin Hub.
  pose proof (max_upper_bound x xs m Hin).
  pose proof (Hub _ (max_is_element x xs)). lia.
Qed.

Lemma max_permutation x xs y ys :
  Permutation (x :: xs) (y :: ys) -> Py.max x xs = Py.max y ys.
Proof.
  intros HP. apply max_unique.
  - rewrite HP. apply max_is_element.
  - intros z Hz. rewrite HP in Hz. by apply max_upper_bound.
Qed.

Lemma evaluate_unfold commits :
  evaluate_version_bump LEVELS p commits =
    match parsed_bumps p commits with
    | [] => (None, [])
    | c :: cs =>
        match LEVELS !! Py.max c cs with
        | Some label => (Some label, [])
        | None => (None, ["Unknown bump level " +:+ pretty (Py.max c cs)])
        end
    end.
Proof. unfold evaluate_version_bump. by rewrite bump_loop_spec. Qed.

Lemma parsed_bumps_elem (commits : list Commit) b :
  b ∈ parsed_bumps p commits
  <-> exists c m, c ∈ commits /\ p (message c) = Some m /\ bump m = b.
Proof.
  unfold parsed_bumps. rewrite list_elem_of_omap. split.
  - intros (c & Hc & Hb). destruct (p (message c)) as [m|] eqn:E; simplify_eq/=.
    eauto.
  - intros (c & m & Hc & Hm & <-). exists c. rewrite Hm. done.
Qed.

(** The result is decided by the highest parsed severity alone. *)
Lemma evaluate_at_maximum (commits : list Commit) c m :
  c ∈ commits -> p (message c) = Some m ->
  (forall c' m', c' ∈ commits -> p (message c') = Some m' -> (bump m' <= bump m)%Z) ->
  evaluate_version_bump LEVELS p commits =
    match LEVELS !! bump m with
    | Some label => (Some label, [])
    | None => (None, ["Unknown bump level " +:+ pretty (bump m)])
    end.
Proof.
  intros Hc Hm Hmax. rewrite evaluate_unfold.
  assert (Hin : bump m ∈ parsed_bumps p commits)
    by (apply parsed_bumps_elem; eauto).
  destruct (parsed_bumps p commits) as [|b bs] eqn:E; [by apply elem_of_nil in Hin|].
  rewrite (max_unique b bs (bump m)); [done|done|].
  intros y Hy. rewrite <- E in Hy.
  apply parsed_bumps_elem in Hy as (c' & m' & ? & ? & <-). eauto.
Qed.

Lemma evaluate_nothing_parsed (commits : list Commit) :
  (forall c, c ∈ commits -> p (message c) = None) ->
  evaluate_version_bump LEVELS p commits = (None, []).
Proof.
  intros Hnone. rewrite evaluate_unfold.
  destruct (parsed_bumps p commits) as [|b bs] eqn:E; [done|].
  assert (Hin : b ∈ parsed_bumps p commits) by (rewrite E; left).
  apply parsed_bumps_elem in Hin as (c & m & Hc & Hm & _).
  rewrite (Hnone c Hc) in Hm. done.
Qed.

Lemma evaluate_some_maximum (commits : list Commit) c m :
  c ∈ commits -> p (message c) = Some m ->
  exists c' m', c' ∈ commits /\ p (message c') = Some m'
    /\ (forall c'' m'', c'' ∈ commits -> p (message c'') = Some m'' ->
          (bump m'' <= bump m')%Z).
Proof.
  intros Hc Hm.
  assert (Hin : bump m ∈ parsed_bumps p commits)
    by (apply parsed_bumps_elem; eauto).
  destruct (parsed_bumps p commits) as [|b bs] eqn:E; [by apply elem_of_nil in Hin|].
  pose proof (max_is_element b bs) as Hmax. rewrite <- E in Hmax.
  apply parsed_bumps_elem in Hmax as (c' & m' & Hc' & Hm' & Hb).
  exists c', m'. split_and!; [done..|].
  intros c'' m'' Hc'' Hm''. rewrite Hb. apply max_upper_bound. rewrite <- E.
  apply parsed_bumps_elem. eauto.
Qed.

End EvaluatorFacts.

(** C4. The evaluator returns no bump when no commit parses (the empty
    sequence included); otherwise some parsed commit carries the highest
    severity among the parsed commits, and the result is the label [LEVELS]
    gives that severity. *)
Theorem evaluate_version_bump_maximum (LEVELS : gmap Z string) (p : parser)
    (commits : list Commit) :
  evaluate_version_bump LEVELS p [] = (None, [])
  /\ ((forall c, c ∈ commits -> p (message c) = None) ->
      evaluate_version_bump LEVELS p commits = (None, []))
  /\ (forall c m, c ∈ commits -> p (message c) = Some m ->
      exists c' m', c' ∈ commits /\ p (message c') = Some m'
        /\ (forall c'' m'', c'' ∈ commits -> p (message c'') = Some m'' ->
              (bump m'' <= bump m')%Z)
        /\ (evaluate_version_bump LEVELS p commits).1 = LEVELS !! bump m').
Proof.
  split; [done|]. split; [apply evaluate_nothing_parsed|].
  intros c m Hc Hm.
  destruct (evaluate_some_maximum p commits c m Hc Hm) as (c' & m' & Hc' & Hm' & Hmax).
  exists c', m'. split_and!; [done..|].
  rewrite (evaluate_at_maximum LEVELS p commits c' m' Hc' Hm' Hmax).
  by destruct (LEVELS !! bump m').
Qed.

Example evaluate_scenario_1 :
  evaluate_version_bump Sample.LEVELS Sample.p [Sample.c_feat] = (Some "minor", []).
Proof. vm_compute. reflexivity. Qed.

Example evaluate_scenario_2 :
  evaluate_version_bump Sample.LEVELS Sample.p [Sample.c_fix; Sample.c_trailer]
  = (Some "major", []).
Proof. vm_compute. reflexivity. Qed.

Example evaluate_unrecognized_only :
  evaluate_version_bump Sample.LEVELS Sample.p [Sample.c_merge; Sample.c_merge]
  = (None, []).
Proof. vm_compute. reflexivity. Qed.

(** C8. The evaluator gives the same result, and prints the same lines, on
    every permutation of the commit sequence. *)
Theorem evaluate_version_bump_permutation (LEVELS : gmap Z string) (p : parser)
    (commits commits' : list Commit) :
  Permutation commits commits' ->
  evaluate_version_bump LEVELS p commits = evaluate_version_bump LEVELS p commits'.
Proof.
  intros HP. rewrite !evaluate_unfold.
  assert (HB : Permutation (parsed_bumps p commits) (parsed_bumps p commits'))
    by (unfold parsed_bumps; by rewrite HP).
  destruct (parsed_bumps p commits) as [|b bs], (parsed_bumps p commits') as [|b' bs'].
  - done.
  - by apply Permutation_nil_cons in HB.
  - symmetry in HB. by apply Permutation_nil_cons in HB.
  - by rewrite (max_permutation b bs b' bs' HB).
Qed.

Lemma evaluate_version_bump_permutation_witness :
  Permutation [Sample.c_fix; Sample.c_merge; Sample.c_bang]
              [Sample.c_bang; Sample.c_fix; Sample.c_merge]
  /\ evaluate_version_bump Sample.LEVELS Sample.p
       [Sample.c_fix; Sample.c_merge; Sample.c_bang]
     = evaluate_version_bump Sample.LEVELS Sample.p
       [Sample.c_bang; Sample.c_fix; Sample.c_merge].
Proof.
  assert (HP : Permutation [Sample.c_fix; Sample.c_merge; Sample.c_bang]
                           [Sample.c_bang; Sample.c_fix; Sample.c_merge]).
  { change (Permutation ([Sample.c_fix; Sample.c_merge] ++ [Sample.c_bang])
                        ([Sample.c_bang] ++ [Sample.c_fix; Sample.c_merge])).
    apply Permutation_app_comm. }
  split; [exact HP|].
  exact (evaluate_version_bump_permutation Sample.LEVELS Sample.p _ _ HP).
Defined.

(** C1, as the code has it. When the highest parsed severity is outside
    [LEVELS], the evaluator prints one warning naming it and returns no bump
    for the whole sequence, whatever the other commits carry; when the highest
    parsed severity is in [LEVELS], its label is returned and nothing is
    printed, whatever lower severities are outside [LEVELS]. *)
Theorem evaluate_version_bump_unmapped_maximum (LEVELS : gmap Z string)
    (p : parser) (commits : list Commit) (c : Commit) (m : ParsedCommit) :
  c ∈ commits -> p (message c) = Some m ->
  (forall c' m', c' ∈ commits -> p (message c') = Some m' -> (bump m' <= bump m)%Z) ->
  (LEVELS !! bump m = None ->
   evaluate_version_bump LEVELS p commits
   = (None, ["Unknown bump level " +:+ pretty (bump m)]))
  /\ (forall label, LEVELS !! bump m = Some label ->
      evaluate_version_bump LEVELS p commits = (Some label, [])).
Proof.
  intros Hc Hm Hmax.
  rewrite (evaluate_at_maximum LEVELS p commits c m Hc Hm Hmax).
  split; [intros ->; done | intros label ->; done].
Qed.

Lemma sample_parsed_bound (commits : list Commit) (bound : Z) :
  forallb (fun b => (b <=? bound)%Z) (parsed_bumps Sample.p commits) = true ->
  forall c' m', c' ∈ commits -> Sample.p (message c') = Some m' -> (bump m' <= bound)%Z.
Proof.
  intros Hall c' m' Hc' Hm'.
  rewrite forallb_forall in Hall. apply Z.leb_le, Hall.
  apply list_elem_of_In, parsed_bumps_elem. eauto.
Qed.

Lemma evaluate_version_bump_unmapped_maximum_witness :
  evaluate_version_bump Sample.LEVELS Sample.p
    [Sample.c_feat; Sample.c_odd; Sample.c_fix]
  = (None, ["Unknown bump level 4"]).
Proof.
  refine (proj1 (evaluate_version_bump_unmapped_maximum Sample.LEVELS Sample.p
                   [Sample.c_feat; Sample.c_odd; Sample.c_fix]
                   Sample.c_odd Sample.odd _ _ _) _).
  - right; left.
  - reflexivity.
  - apply sample_parsed_bound. reflexivity.
  - reflexivity.
Defined.

(** C1 as the specification states it fails on the code. With severities 2
    and 4 the code returns no bump where the statement promises the label of
    2; with severities 0 and 2 the code prints nothing where the statement
    promises a warning for 0. *)
Lemma evaluate_version_bump_unmapped_counterexample :
  (Sample.p (message Sample.c_feat) = Some Sample.feat
   /\ Sample.p (message Sample.c_odd) = Some Sample.odd
   /\ Sample.LEVELS !! bump Sample.feat = Some "minor"
   /\ Sample.LEVELS !! bump Sample.odd = None
   /\ evaluate_version_bump Sample.LEVELS Sample.p [Sample.c_feat; Sample.c_odd]
      = (None, ["Unknown bump level 4"])
   /\ spec_evaluate_version_bump Sample.LEVELS Sample.p [Sample.c_feat; Sample.c_odd]
      = (Some "minor", ["Unknown bump level 4"]))
  /\ (Sample.p (message Sample.c_chore) = Some Sample.chore
      /\ Sample.LEVELS !! bump Sample.chore = None
      /\ evaluate_version_bump Sample.LEVELS Sample.p [Sample.c_chore; Sample.c_feat]
         = (Some "minor", [])
      /\ spec_evaluate_version_bump Sample.LEVELS Sample.p [Sample.c_chore; Sample.c_feat]
         = (Some "minor", ["Unknown bump level 0"])).
Proof. vm_compute. repeat split. Qed.

(** ** The dictionary *)

Section DictFacts.

Context {V : Type}.
Implicit Types (d : Dict.t V) (k : string) (v : V).

Lemma get_set_eq k v d : Dict.get k (Dict.set k v d) = Some v.
Proof.
  induction d as [|[k' v'] d IH]; simpl.
  - by rewrite String.eqb_refl.
  - destruct (String.eqb k k') eqn:E; simpl; rewrite E; done.
Qed.

Lemma get_set_ne k k' v d : k <> k' -> Dict.get k' (Dict.set k v d) = Dict.get k' d.
Proof.
  intros Hne. induction d as [|[k0 v0] d IH]; simpl.
  - destruct (String.eqb_spec k' k); congruence.
  - destruct (String.eqb_spec k k0) as [->|]; simpl.
    + destruct (String.eqb_spec k' k0); congruence.
    + by rewrite IH.
Qed.

Lemma get_set k k' v d :
  Dict.get k' (Dict.set k v d) = if decide (k = k') then Some v else Dict.get k' d.
Proof.
  case_decide as H; [subst; apply get_set_eq | by apply get_set_ne].
Qed.

Lemma mem_get k d : Dict.mem k d = bool_decide (is_Some (Dict.get k d)).
Proof.
  unfold Dict.mem. destruct (Dict.get k d); symmetry.
  - apply bool_decide_eq_true. eauto.
  - apply bool_decide_eq_false. by intros [? ?].
Qed.

(** A key is in the dictionary exactly when it is among its keys. *)
Lemma get_keys k d : is_Some (Dict.get k d) <-> k ∈ Dict.keys d.
Proof.
  unfold Dict.keys. induction d as [|[k' v'] d IH]; simpl.
  - split; [by intros [? ?] | by intros ?%elem_of_nil].
  - rewrite elem_of_cons. destruct (String.eqb_spec k k') as [->|Hne].
    + split; eauto.
    + rewrite IH. split; [by right | by intros [?|?]].
Qed.

End DictFacts.

Lemma append_ok {A} (k : string) (x : A) (d : Dict.t (list A)) (l : list A) :
  Dict.get k d = Some l -> Dict.append k x d = Ok (Dict.set k (l ++ [x]) d).
Proof. unfold Dict.append. by intros ->. Qed.

(** Appending a run of items under one key. *)
Lemma for_each_append {A B} (k : string) (f : B -> A) (xs : list B)
    (d : Dict.t (list A)) (l : list A) :
  Dict.get k d = Some l ->
  exists d', for_each (fun d x => Dict.append k (f x) d) xs d = Ok d'
    /\ Dict.get k d' = Some (l ++ map f xs)
    /\ forall k', k' <> k -> Dict.get k' d' = Dict.get k' d.
Proof.
  revert d l. induction xs as [|x xs IH]; intros d l Hk; simpl.
  - exists d. by rewrite app_nil_r.
  - rewrite (append_ok k (f x) d l Hk). simpl.
    destruct (IH (Dict.set k (l ++ [f x]) d) (l ++ [f x])) as (d' & Hrun & Hget & Hother).
    { apply get_set_eq. }
    exists d'. split; [exact Hrun|]. split.
    + rewrite Hget, <- app_assoc. done.
    + intros k' Hne. rewrite Hother by done. apply get_set_ne. congruence.
Qed.

Lemma for_each_app {A S} (body : S -> A -> res S) (xs ys : list A) (acc : S) :
  for_each body (xs ++ ys) acc = (acc' ← for_each body xs acc; for_each body ys acc').
Proof.
  revert acc. induction xs as [|x xs IH]; intros acc; simpl; [done|].
  destruct (body acc x) as [acc'|e]; simpl; [apply IH | done].
Qed.

(** ** The changelog builder *)

Lemma bind_ok {A B} (a : A) (k : A -> res B) : (Ok a ≫= k) = k a.
Proof. reflexivity. Qed.

Section BuilderFacts.

Variable U : Py.Unicode.
Variable p : parser.

Lemma has_summary_inv m :
  has_summary m = true -> exists a r ds, descriptions m = String a r :: ds.
Proof.
  unfold has_summary. destruct (descriptions m) as [|[|a r] ds]; [done..|]. eauto.
Qed.

(** A commit whose first description is missing or empty stops the builder. *)
Lemma changelog_add_ok_summary ch c m ch' :
  changelog_add U ch c m = Ok ch' -> has_summary m = true.
Proof.
  unfold changelog_add, has_summary.
  destruct (descriptions m) as [|[|a r] ds]; simpl; done.
Qed.

(** The effect of one parsed commit on every key. *)
Lemma changelog_add_spec (ch : changelog) c m :
  has_summary m = true -> is_Some (Dict.get "breaking" ch) ->
  exists ch', changelog_add U ch c m = Ok ch'
    /\ forall k, Dict.get k ch' =
         if decide (k = type m)
         then Some (default [] (Dict.get k ch) ++ additions U k c m)
         else (fun l => l ++ additions U k c m) <$> Dict.get k ch.
Proof.
  intros Hsum [old Hold].
  destruct (has_summary_inv m Hsum) as (a & r & ds & Hd).
  unfold changelog_add. rewrite Hd.
  change (Py.list_head (String a r :: ds)) with (Ok (String a r)).
  rewrite bind_ok.
  change (Py.str_head (String a r)) with (Ok (Py.first_char (String a r))).
  rewrite bind_ok.
  set (ch1 := if negb (Dict.mem (type m) ch) then Dict.set (type m) [] ch else ch).
  assert (H1 : Dict.get (type m) ch1 = Some (default [] (Dict.get (type m) ch))).
  { unfold ch1, Dict.mem. destruct (Dict.get (type m) ch) eqn:E; simpl; [done|].
    apply get_set_eq. }
  assert (H1' : forall k, k <> type m -> Dict.get k ch1 = Dict.get k ch).
  { intros k Hk. unfold ch1. destruct (negb _); [|done]. by apply get_set_ne. }
  rewrite (append_ok _ _ _ _ H1), bind_ok.
  set (x := (sha c, Py.str_upper U (Py.first_char (String a r))
                      +:+ Py.str_tail (String a r))).
  set (ch2 := Dict.set (type m) (default [] (Dict.get (type m) ch) ++ [x]) ch1).
  assert (Hx : (sha c, capitalized U m) = x) by (unfold capitalized; by rewrite Hd).
  assert (H2 : forall k, Dict.get k ch2 =
            if decide (k = type m) then Some (default [] (Dict.get k ch) ++ [x])
            else Dict.get k ch).
  { intros k. unfold ch2. rewrite get_set.
    destruct (decide (type m = k)) as [<-|Hne].
    - by rewrite decide_True.
    - rewrite decide_False by congruence. apply H1'. congruence. }
  assert (Hb2 : exists l2, Dict.get "breaking" ch2 = Some l2).
  { rewrite H2. case_decide; [eauto|]. rewrite Hold. eauto. }
  destruct Hb2 as [l2 Hb2].
  assert (Hfin : forall extra ch',
            Dict.get "breaking" ch' = Some (l2 ++ extra) ->
            (forall k', k' <> "breaking" -> Dict.get k' ch' = Dict.get k' ch2) ->
            breaking_entries c m = extra ->
            forall k, Dict.get k ch' =
              if decide (k = type m)
              then Some (default [] (Dict.get k ch) ++ additions U k c m)
              else (fun l => l ++ additions U k c m) <$> Dict.get k ch).
  { intros extra ch' Hget Hother Hextra k. unfold additions. rewrite Hextra, Hx.
    destruct (decide (k = "breaking")) as [->|Hkb].
    - rewrite Hget, Hold. rewrite H2, Hold in Hb2.
      destruct (decide ("breaking" = type m)); simpl in *.
      + injection Hb2 as <-. by rewrite <- app_assoc.
      + injection Hb2 as <-. done.
    - rewrite Hother, H2 by done.
      destruct (decide (k = type m)); simpl; [done|].
      destruct (Dict.get k ch); simpl; by rewrite ?app_nil_r. }
  destruct (breaking_descriptions m) as [|b bs] eqn:Hbd.
  - destruct (bump m =? 3)%Z eqn:Hbump.
    + rewrite bind_ok, (append_ok _ _ _ _ Hb2).
      eexists; split; [done|].
      apply (Hfin [(sha c, String a r)]).
      * apply get_set_eq.
      * intros k' Hk'. apply get_set_ne. congruence.
      * unfold breaking_entries. by rewrite Hbd, Hbump, Hd.
    + exists ch2. split; [done|].
      apply (Hfin []).
      * by rewrite app_nil_r.
      * done.
      * unfold breaking_entries. by rewrite Hbd, Hbump.
  - destruct (for_each_append "breaking" (pair (sha c)) (b :: bs) ch2 l2 Hb2)
      as (ch' & Hrun & Hget & Hother).
    exists ch'. split; [exact Hrun|].
    apply (Hfin (map (pair (sha c)) (b :: bs))); [done..|].
    unfold breaking_entries. by rewrite Hbd.
Qed.

Lemma changelog_add_keeps_breaking (ch : changelog) c m ch' :
  is_Some (Dict.get "breaking" ch) -> changelog_add U ch c m = Ok ch' ->
  is_Some (Dict.get "breaking" ch').
Proof.
  intros Hb Hadd.
  destruct (changelog_add_spec ch c m (changelog_add_ok_summary _ _ _ _ Hadd) Hb)
    as (ch1 & Hrun & Hget).
  rewrite Hrun in Hadd. injection Hadd as <-. rewrite Hget.
  destruct Hb as [old ->]. case_decide; simpl; eauto.
Qed.

Lemma parsed_types_cons c (cs : list Commit) :
  parsed_types p (c :: cs) =
    match p (message c) with
    | Some m => type m :: parsed_types p cs
    | None => parsed_types p cs
    end.
Proof. unfold parsed_types. simpl. by destruct (p (message c)). Qed.

Lemma all_additions_cons k c (cs : list Commit) :
  all_additions U p k (c :: cs) =
    match p (message c) with
    | Some m => additions U k c m
    | None => []
    end ++ all_additions U p k cs.
Proof. reflexivity. Qed.

Lemma for_each_cons {A S} (body : S -> A -> res S) x xs acc :
  for_each body (x :: xs) acc = (acc' ← body acc x; for_each body xs acc').
Proof. reflexivity. Qed.

Lemma changelog_step_parsed ch c m :
  p (message c) = Some m -> changelog_step U p ch c = changelog_add U ch c m.
Proof. unfold changelog_step. by intros ->. Qed.

Lemma changelog_step_skipped ch c :
  p (message c) = None -> changelog_step U p ch c = Ok ch.
Proof. unfold changelog_step. by intros ->. Qed.

(** The effect of a run of the loop on every key. *)
Lemma for_each_step_spec (commits : list Commit) (ch : changelog) :
  is_Some (Dict.get "breaking" ch) ->
  (forall c m, c ∈ commits -> p (message c) = Some m -> has_summary m = true) ->
  exists ch', for_each (changelog_step U p) commits ch = Ok ch'
    /\ forall k, Dict.get k ch' =
         if decide (k ∈ parsed_types p commits)
         then Some (default [] (Dict.get k ch) ++ all_additions U p k commits)
         else (fun l => l ++ all_additions U p k commits) <$> Dict.get k ch.
Proof.
  revert ch. induction commits as [|c cs IH]; intros ch Hb Hsum.
  - exists ch. split; [done|]. intros k. simpl.
    destruct (Dict.get k ch); simpl; by rewrite ?app_nil_r.
  - rewrite for_each_cons.
    destruct (p (message c)) as [m|] eqn:Hm.
    + rewrite (changelog_step_parsed _ _ _ Hm).
      destruct (changelog_add_spec ch c m) as (ch1 & Hadd & H1); [|done|].
      { apply (Hsum c); [left|done]. }
      rewrite Hadd, bind_ok.
      destruct (IH ch1) as (ch' & Hrun & H'').
      { eapply changelog_add_keeps_breaking; eauto. }
      { intros c' m' Hc'. apply Hsum. by right. }
      exists ch'. split; [done|]. intros k.
      rewrite H'', H1, parsed_types_cons, all_additions_cons, Hm.
      destruct (decide (k = type m)) as [->|Hne].
      * rewrite (decide_True (P := type m ∈ type m :: parsed_types p cs)) by left.
        case_decide; simpl; by rewrite app_assoc.
      * assert (Hnone : Dict.get k ch = None -> additions U k c m = []).
        { intros Hk. unfold additions.
          rewrite !decide_False; [done| |done].
          intros ->. destruct Hb as [? Hb]. congruence. }
        destruct (decide (k ∈ parsed_types p cs)) as [Hin|Hnin].
        -- rewrite decide_True by (by right).
           destruct (Dict.get k ch); simpl; [by rewrite app_assoc|].
           by rewrite Hnone.
        -- rewrite decide_False by (intros [?|?]%elem_of_cons; done).
           destruct (Dict.get k ch); simpl; by rewrite ?app_assoc.
    + rewrite (changelog_step_skipped _ _ Hm), bind_ok.
      destruct (IH ch) as (ch' & Hrun & H''); [done| |].
      { intros c' m' Hc'. apply Hsum. by right. }
      exists ch'. split; [done|]. intros k.
      rewrite H'', parsed_types_cons, all_additions_cons, Hm. done.
Qed.

(** A run that ends well met no parsed commit without a first description. *)
Lemma for_each_step_ok (commits : list Commit) (ch ch' : changelog) :
  for_each (changelog_step U p) commits ch = Ok ch' ->
  forall c m, c ∈ commits -> p (message c) = Some m -> has_summary m = true.
Proof.
  revert ch. induction commits as [|c0 cs IH]; intros ch Hrun c m Hc Hm.
  - by apply elem_of_nil in Hc.
  - simpl in Hrun.
    destruct (changelog_step U p ch c0) as [ch1|e] eqn:Hstep; simpl in Hrun; [|done].
    apply elem_of_cons in Hc as [->|Hc]; [|by eapply IH].
    rewrite (changelog_step_parsed _ _ _ Hm) in Hstep.
    by eapply changelog_add_ok_summary.
Qed.

Lemma initial_breaking : is_Some (Dict.get "breaking" ([("breaking", [])] : changelog)).
Proof. by eexists. Qed.

(** The changelog of a sequence, key by key. *)
Lemma generate_changelog_spec (commits : list Commit) :
  (forall c m, c ∈ commits -> p (message c) = Some m -> has_summary m = true) ->
  exists ch, generate_changelog U p commits = Ok ch
    /\ Dict.get "breaking" ch = Some (all_additions U p "breaking" commits)
    /\ forall k, k <> "breaking" ->
         Dict.get k ch =
           if decide (k ∈ parsed_types p commits)
           then Some (all_additions U p k commits) else None.
Proof.
  intros Hsum.
  destruct (for_each_step_spec commits [("breaking", [])] initial_breaking Hsum)
    as (ch & Hrun & Hget).
  exists ch. split; [done|]. split.
  - rewrite Hget. simpl. by case_decide.
  - intros k Hk. rewrite Hget. simpl.
    destruct (String.eqb_spec k "breaking"); [done|]. by case_decide.
Qed.

Lemma generate_changelog_ok (commits : list Commit) ch :
  generate_changelog U p commits = Ok ch ->
  forall c m, c ∈ commits -> p (message c) = Some m -> has_summary m = true.
Proof. apply for_each_step_ok. Qed.

Lemma additions_in (k : string) (commits : list Commit) c m e :
  c ∈ commits -> p (message c) = Some m -> e ∈ additions U k c m ->
  e ∈ all_additions U p k commits.
Proof.
  intros Hc Hm He. unfold all_additions.
  apply list_elem_of_In, in_flat_map. exists c. split; [by apply list_elem_of_In|].
  rewrite Hm. by apply list_elem_of_In.
Qed.

Lemma parsed_types_elem (commits : list Commit) c m :
  c ∈ commits -> p (message c) = Some m -> type m ∈ parsed_types p commits.
Proof.
  intros Hc Hm. unfold parsed_types. apply list_elem_of_omap.
  exists c. rewrite Hm. done.
Qed.

End BuilderFacts.

Lemma generate_changelog_has_breaking (U : Py.Unicode) (p : parser) (commits : list Commit) ch :
  generate_changelog U p commits = Ok ch -> is_Some (Dict.get "breaking" ch).
Proof.
  intros Hrun.
  destruct (generate_changelog_spec U p commits (generate_changelog_ok U p commits ch Hrun))
    as (ch' & Hrun' & Hb & _).
  rewrite Hrun in Hrun'. injection Hrun' as ->. eauto.
Qed.

Lemma generate_changelog_snoc (U : Py.Unicode) (p : parser) (commits : list Commit) c ch0 :
  generate_changelog U p commits = Ok ch0 ->
  generate_changelog U p (commits ++ [c]) = changelog_step U p ch0 c.
Proof.
  unfold generate_changelog. intros Hrun.
  rewrite for_each_app, Hrun, bind_ok, for_each_cons. simpl.
  by destruct (changelog_step U p ch0 c).
Qed.

Lemma generate_changelog_unrecognized (U : Py.Unicode) (p : parser) (commits : list Commit) :
  (forall c, c ∈ commits -> p (message c) = None) ->
  generate_changelog U p commits = Ok [("breaking", [])].
Proof.
  unfold generate_changelog. generalize ([("breaking", [])] : changelog).
  induction commits as [|c cs IH]; intros ch Hnone; [done|].
  rewrite for_each_cons, changelog_step_skipped, bind_ok.
  - apply IH. intros c' Hc'. apply Hnone. by right.
  - apply Hnone. left.
Qed.

(** C7. Whenever the builder returns a changelog, the key "breaking" is in
    it; it returns one for every sequence whose parsed commits have a
    non-empty first description; for the empty sequence and for a sequence in
    which no commit parses, the changelog is the key "breaking" alone, with
    the empty list. *)
Theorem generate_changelog_breaking_key (U : Py.Unicode) (p : parser)
    (commits : list Commit) :
  (forall ch, generate_changelog U p commits = Ok ch ->
     is_Some (Dict.get "breaking" ch) /\ "breaking" ∈ Dict.keys ch)
  /\ ((forall c m, c ∈ commits -> p (message c) = Some m -> has_summary m = true) ->
      exists ch, generate_changelog U p commits = Ok ch)
  /\ generate_changelog U p [] = Ok [("breaking", [])]
  /\ ((forall c, c ∈ commits -> p (message c) = None) ->
      generate_changelog U p commits = Ok [("breaking", [])]).
Proof.
  split_and!.
  - intros ch Hrun. pose proof (generate_changelog_has_breaking U p commits ch Hrun) as Hb.
    split; [done|]. by apply get_keys.
  - intros Hsum. destruct (generate_changelog_spec U p commits Hsum) as (ch & Hrun & _).
    eauto.
  - done.
  - apply generate_changelog_unrecognized.
Qed.

Example changelog_scenario_1 :
  generate_changelog Sample.U Sample.p [Sample.c_feat]
  = Ok [("breaking", []); ("feature", [("a1", "Add login")])].
Proof. reflexivity. Qed.

Example changelog_scenario_2 :
  generate_changelog Sample.U Sample.p [Sample.c_fix; Sample.c_trailer]
  = Ok [("breaking", [("e5", "old API removed")]);
        ("fix", [("b2", "Typo")]);
        ("feature", [("e5", "Remove old API")])].
Proof. reflexivity. Qed.

(** An empty first description stops the builder with an [IndexError]. *)
Example changelog_blank_summary :
  generate_changelog Sample.U Sample.p [Sample.c_feat; Sample.c_blank] = Raise IndexError.
Proof. reflexivity. Qed.

(** C6. For a parsed commit whose first description [d] is not empty, the
    builder appends to the list of the commit's type the pair of the sha and
    [d[0].upper() + d[1:]]: the first character of [d] upper-cased, followed
    by every other character of [d] unchanged. The first character and the
    rest make up [d]; when the first character is of the ASCII range, the
    stored text is that character upper-cased, followed by the rest. Nothing
    follows the pair unless the type is the key "breaking" itself. *)
Theorem changelog_entry_capitalized (U : Py.Unicode) (p : parser)
    (commits : list Commit) (c : Commit) (m : ParsedCommit) (a : ascii)
    (r : string) (ds : list string) (ch0 : changelog) :
  generate_changelog U p commits = Ok ch0 ->
  p (message c) = Some m ->
  descriptions m = String a r :: ds ->
  exists ch rest,
    generate_changelog U p (commits ++ [c]) = Ok ch
    /\ Dict.get (type m) ch
       = Some (default [] (Dict.get (type m) ch0)
               ++ (sha c, Py.str_upper U (Py.first_char (String a r))
                            +:+ Py.str_tail (String a r)) :: rest)
    /\ (type m <> "breaking" -> rest = [])
    /\ Py.first_char (String a r) +:+ Py.str_tail (String a r) = String a r
    /\ (ascii_laws U -> Py.is_ascii a = true ->
        Py.str_upper U (Py.first_char (String a r)) +:+ Py.str_tail (String a r)
        = String (Py.ascii_upper a) r).
Proof.
  intros Hrun Hm Hd.
  rewrite (generate_changelog_snoc U p commits c ch0 Hrun), (changelog_step_parsed U p _ _ _ Hm).
  destruct (changelog_add_spec U ch0 c m) as (ch & Hadd & Hget).
  { unfold has_summary. by rewrite Hd. }
  { by eapply generate_changelog_has_breaking. }
  exists ch, (if decide (type m = "breaking") then breaking_entries c m else []).
  split; [done|]. split; [|split; [|split]].
  - rewrite Hget, decide_True by done. unfold additions, capitalized.
    rewrite decide_True, Hd by done. done.
  - intros Hne. by rewrite decide_False.
  - apply first_char_tail.
  - apply capital_ascii.
Qed.

Lemma changelog_entry_capitalized_witness :
  (exists ch rest,
     generate_changelog Sample.U_latin Sample.p_latin ([Sample.c_fix] ++ [Sample.c_ete])
     = Ok ch
     /\ Dict.get "fix" ch
        = Some ([("b2", "Typo")]
                ++ ("d0", Sample.E_acute +:+ "t" +:+ Sample.e_acute +:+ " fini") :: rest)
     /\ ("fix" <> "breaking" -> rest = [])
     /\ Sample.e_acute +:+ "t" +:+ Sample.e_acute +:+ " fini"
        = Sample.e_acute +:+ "t" +:+ Sample.e_acute +:+ " fini"
     /\ (ascii_laws Sample.U_latin -> Py.is_ascii "195" = true ->
         Sample.E_acute +:+ "t" +:+ Sample.e_acute +:+ " fini"
         = String (Py.ascii_upper "195")
             (String "169" ("t" +:+ Sample.e_acute +:+ " fini"))))
  /\ (exists ch rest,
        generate_changelog Sample.U Sample.p ([Sample.c_fix] ++ [Sample.c_feat]) = Ok ch
        /\ Dict.get "feature" ch = Some ([] ++ ("a1", "Add login") :: rest)
        /\ ("feature" <> "breaking" -> rest = [])
        /\ "add login" = "add login"
        /\ (ascii_laws Sample.U -> Py.is_ascii "a" = true ->
            "Add login" = "Add login")).
Proof.
  split.
  - exact (changelog_entry_capitalized Sample.U_latin Sample.p_latin [Sample.c_fix]
             Sample.c_ete Sample.ete "195"
             (String "169" ("t" +:+ Sample.e_acute +:+ " fini")) []
             [("breaking", []); ("fix", [("b2", "Typo")])]
             eq_refl eq_refl eq_refl).
  - exact (changelog_entry_capitalized Sample.U Sample.p [Sample.c_fix]
             Sample.c_feat Sample.feat "a" "dd login" []
             [("breaking", []); ("fix", [("b2", "Typo")])]
             eq_refl eq_refl eq_refl).
Defined.

(** A first character of the ASCII range. *)
Example changelog_entry_capitalized_ascii :
  generate_changelog Sample.U Sample.p ([Sample.c_fix] ++ [Sample.c_feat])
  = Ok [("breaking", []); ("fix", [("b2", "Typo")]); ("feature", [("a1", "Add login")])].
Proof. reflexivity. Qed.

(** C2. For a parsed commit (its type, by the data model, is not the
    reserved key "breaking"): breaking paragraphs, when there are any, are
    each appended, with the sha, to the list of "breaking"; otherwise, when
    the severity is 3, the first description is appended as it is, not
    capitalized, with the sha; otherwise the list of "breaking" stays as it
    was. *)
Theorem changelog_breaking_entries (U : Py.Unicode) (p : parser)
    (commits : list Commit) (c : Commit) (m : ParsedCommit) (a : ascii)
    (r : string) (ds : list string) (ch0 : changelog) :
  generate_changelog U p commits = Ok ch0 ->
  p (message c) = Some m ->
  descriptions m = String a r :: ds ->
  type m <> "breaking" ->
  exists ch old,
    generate_changelog U p (commits ++ [c]) = Ok ch
    /\ Dict.get "breaking" ch0 = Some old
    /\ Dict.get "breaking" ch
       = Some (old ++
               match breaking_descriptions m with
               | _ :: _ => map (pair (sha c)) (breaking_descriptions m)
               | [] => if (bump m =? 3)%Z then [(sha c, String a r)] else []
               end).
Proof.
  intros Hrun Hm Hd Hty.
  rewrite (generate_changelog_snoc U p commits c ch0 Hrun), (changelog_step_parsed U p _ _ _ Hm).
  destruct (generate_changelog_has_breaking U p commits ch0 Hrun) as [old Hold].
  destruct (changelog_add_spec U ch0 c m) as (ch & Hadd & Hget).
  { unfold has_summary. by rewrite Hd. }
  { eauto. }
  exists ch, old. split; [done|]. split; [done|].
  rewrite Hget, decide_False, Hold by congruence. simpl.
  unfold additions. rewrite decide_False, decide_True by congruence. simpl.
  unfold breaking_entries. by rewrite Hd.
Qed.

Lemma changelog_breaking_entries_witness :
  exists ch old,
    generate_changelog Sample.U Sample.p ([Sample.c_bang] ++ [Sample.c_trailer]) = Ok ch
    /\ Dict.get "breaking" [("breaking", [("d4", "remove old API")]);
                            ("feature", [("d4", "Remove old API")])] = Some old
    /\ Dict.get "breaking" ch = Some (old ++ [("e5", "old API removed")]).
Proof.
  exact (changelog_breaking_entries Sample.U Sample.p [Sample.c_bang] Sample.c_trailer
           Sample.trailer "r" "emove old API" ["BREAKING CHANGE: old API removed"]
           [("breaking", [("d4", "remove old API")]);
            ("feature", [("d4", "Remove old API")])]
           eq_refl eq_refl eq_refl ltac:(discriminate)).
Defined.

(** The uncapitalized fallback for a commit of severity 3 without breaking
    paragraphs, next to the capitalized entry under its type. *)
Example changelog_severity_fallback :
  generate_changelog Sample.U Sample.p [Sample.c_bang]
  = Ok [("breaking", [("d4", "remove old API")]);
        ("feature", [("d4", "Remove old API")])].
Proof. reflexivity. Qed.

(** The type key and the reserved key share one dictionary: a parser that
    answered the type "breaking" would have the capitalized entry of the
    commit land in the list of the reserved key. *)
Example changelog_reserved_type :
  generate_changelog Sample.U Sample.p ([] ++ [Sample.c_reserved])
  = Ok [("breaking", [("a7", "Tidy")])].
Proof. reflexivity. Qed.

(** C10. When every parsed commit has a non-empty first description the
    builder returns a changelog in which every parsed commit, whatever its
    severity, has its capitalized entry (the first character of its first
    description upper-cased, the rest unchanged) in the list of its type; a
    commit with breaking paragraphs has, besides, each of them in the list of
    "breaking", and a commit of severity 3 without breaking paragraphs has
    its first description there, as it is. *)
Theorem changelog_type_entry_always (U : Py.Unicode) (p : parser)
    (commits : list Commit) :
  (forall c m, c ∈ commits -> p (message c) = Some m -> has_summary m = true) ->
  exists ch,
    generate_changelog U p commits = Ok ch
    /\ forall c m d ds,
         c ∈ commits -> p (message c) = Some m ->
         descriptions m = d :: ds ->
         (exists l, Dict.get (type m) ch = Some l
            /\ (sha c, Py.str_upper U (Py.first_char d) +:+ Py.str_tail d) ∈ l)
         /\ (exists lb, Dict.get "breaking" ch = Some lb
               /\ (forall paragraph, paragraph ∈ breaking_descriptions m ->
                     (sha c, paragraph) ∈ lb)
               /\ (breaking_descriptions m = [] -> bump m = 3%Z ->
                     (sha c, d) ∈ lb))
         /\ (ascii_laws U -> forall a r, d = String a r -> Py.is_ascii a = true ->
             Py.str_upper U (Py.first_char d) +:+ Py.str_tail d
             = String (Py.ascii_upper a) r).
Proof.
  intros Hsum.
  destruct (generate_changelog_spec U p commits Hsum) as (ch & Hrun & Hb & Hother).
  exists ch. split; [done|].
  intros c m d ds Hc Hm Hd.
  assert (Hcap : capitalized U m = Py.str_upper U (Py.first_char d) +:+ Py.str_tail d).
  { pose proof (Hsum c m Hc Hm) as Hs. unfold has_summary in Hs.
    unfold capitalized. rewrite Hd in *. by destruct d. }
  split; [|split].
  - assert (Hin : (sha c, Py.str_upper U (Py.first_char d) +:+ Py.str_tail d)
                    ∈ all_additions U p (type m) commits).
    { apply (additions_in U p _ _ c m); [done..|].
      unfold additions. rewrite decide_True, Hcap by done.
      apply elem_of_app. left. left. }
    destruct (decide (type m = "breaking")) as [Heq|Hne].
    + rewrite Heq in *. eauto.
    + rewrite Hother by done.
      rewrite decide_True by (by eapply parsed_types_elem). eauto.
  - exists (all_additions U p "breaking" commits). split; [done|]. split.
    + intros paragraph Hpar. apply (additions_in U p _ _ c m); [done..|].
      unfold additions. rewrite (decide_True (P := "breaking" = "breaking")) by done.
      apply elem_of_app. right. unfold breaking_entries.
      destruct (breaking_descriptions m) as [|b bs]; [by apply elem_of_nil in Hpar|].
      by apply list_elem_of_fmap_2.
    + intros Hnil Hbump. apply (additions_in U p _ _ c m); [done..|].
      unfold additions. rewrite (decide_True (P := "breaking" = "breaking")) by done.
      apply elem_of_app. right. unfold breaking_entries.
      rewrite Hnil, Hbump, Hd. simpl. left.
  - intros HU a r -> Ha. by apply capital_ascii.
Qed.

Lemma sample_summaries (commits : list Commit) :
  forallb has_summary (omap (fun c => Sample.p (message c)) commits) = true ->
  forall c m, c ∈ commits -> Sample.p (message c) = Some m -> has_summary m = true.
Proof.
  intros Hall c m Hc Hm. rewrite forallb_forall in Hall. apply Hall.
  apply list_elem_of_In, list_elem_of_omap. eauto.
Qed.

Lemma changelog_type_entry_always_witness :
  generate_changelog Sample.U Sample.p [Sample.c_fix; Sample.c_bang; Sample.c_trailer]
  = Ok [("breaking", [("d4", "remove old API"); ("e5", "old API removed")]);
        ("fix", [("b2", "Typo")]);
        ("feature", [("d4", "Remove old API"); ("e5", "Remove old API")])]
  /\ exists ch,
       generate_changelog Sample.U Sample.p [Sample.c_fix; Sample.c_bang; Sample.c_trailer]
       = Ok ch
       /\ forall c m d ds,
            c ∈ [Sample.c_fix; Sample.c_bang; Sample.c_trailer] ->
            Sample.p (message c) = Some m ->
            descriptions m = d :: ds ->
            (exists l, Dict.get (type m) ch = Some l
               /\ (sha c, Py.str_upper Sample.U (Py.first_char d) +:+ Py.str_tail d) ∈ l)
            /\ (exists lb, Dict.get "breaking" ch = Some lb
                  /\ (forall paragraph, paragraph ∈ breaking_descriptions m ->
                        (sha c, paragraph) ∈ lb)
                  /\ (breaking_descriptions m = [] -> bump m = 3%Z ->
                        (sha c, d) ∈ lb))
            /\ (ascii_laws Sample.U -> forall a r, d = String a r ->
                Py.is_ascii a = true ->
                Py.str_upper Sample.U (Py.first_char d) +:+ Py.str_tail d
                = String (Py.ascii_upper a) r).
Proof.
  split; [reflexivity|].
  apply (changelog_type_entry_always Sample.U Sample.p
           [Sample.c_fix; Sample.c_bang; Sample.c_trailer]).
  apply sample_summaries. reflexivity.
Defined.

Example changelog_breaking_twice :
  generate_changelog Sample.U Sample.p [Sample.c_fix; Sample.c_bang; Sample.c_trailer]
  = Ok [("breaking", [("d4", "remove old API"); ("e5", "old API removed")]);
        ("fix", [("b2", "Typo")]);
        ("feature", [("d4", "Remove old API"); ("e5", "Remove old API")])].
Proof. reflexivity. Qed.

(** ** The changelog renderer *)

Lemma render_items_spec (items : list entry) (output : string) :
  render_items items output
  = output +:+ str_join (map (fun item => "* " +:+ item.2 +:+ " (" +:+ item.1 +:+ ")" +:+ nl) items).
Proof.
  unfold render_items. revert output.
  induction items as [|item items IH]; intros output; simpl.
  - by rewrite str_app_nil_r.
  - rewrite IH. unfold str_join. simpl. by rewrite !str_app_assoc.
Qed.

Lemma render_sections_spec (U : Py.Unicode) (dict : changelog) (output : string) :
  fold_left (render_section U) dict output
  = output +:+
    str_join
      (map (fun kv : string * list entry =>
              match kv.2 with
              | [] => EmptyString
              | _ :: _ =>
                  nl +:+ "### " +:+ Py.str_capitalize U kv.1 +:+ nl +:+
                  str_join (map (fun item => "* " +:+ item.2 +:+ " (" +:+ item.1 +:+ ")" +:+ nl) kv.2)
              end) dict).
Proof.
  revert output. induction dict as [|[section items] dict IH]; intros output; simpl.
  - by rewrite str_app_nil_r.
  - rewrite IH. unfold str_join at 3. simpl. fold (str_join).
    destruct items as [|item items]; simpl.
    + done.
    + rewrite render_items_spec. simpl. by rewrite !str_app_assoc.
Qed.

(** C3, as the code has it. The rendered text is the optional version line
    followed, for each key in the order of the dictionary, by nothing when
    the key has no entry, and otherwise by a header made of the key
    capitalized as [str.capitalize] does, its first character upper-cased
    and the others lower-cased, and one line [* description (sha)] per entry
    in order. A key with no entry can be dropped without changing the text.
    For a key of the ASCII range the header is the first letter upper-cased
    followed by the other letters lower-cased. *)
Theorem markdown_changelog_sections (U : Py.Unicode) (version : string)
    (dict : changelog) (header : bool) :
  markdown_changelog U version dict header
  = (if header then "## v" +:+ version +:+ nl else EmptyString) +:+
    str_join
      (map (fun kv : string * list entry =>
              match kv.2 with
              | [] => EmptyString
              | _ :: _ =>
                  nl +:+ "### " +:+ Py.str_capitalize U kv.1 +:+ nl +:+
                  str_join (map (fun item => "* " +:+ item.2 +:+ " (" +:+ item.1 +:+ ")" +:+ nl) kv.2)
              end) dict)
  /\ (forall before key after,
       dict = before ++ (key, []) :: after ->
       markdown_changelog U version dict header
       = markdown_changelog U version (before ++ after) header)
  /\ (ascii_laws U -> forall c r,
       ascii_only (String c r) = true ->
       Py.str_capitalize U (String c r)
       = String (Py.ascii_upper c) (Py.str_map Py.ascii_lower r)).
Proof.
  split; [|split].
  - unfold markdown_changelog. by rewrite render_sections_spec.
  - intros before key after ->. unfold markdown_changelog.
    rewrite !fold_left_app. done.
  - intros HU c r Hs. by rewrite (capitalize_ascii U HU _ Hs).
Qed.

Example markdown_scenario_2 :
  markdown_changelog Sample.U "2.0.0"
    [("breaking", [("e5", "old API removed")]);
     ("fix", [("b2", "Typo")]);
     ("docs", []);
     ("feature", [("e5", "Remove old API")])] true
  = "## v2.0.0" +:+ nl +:+
    nl +:+ "### Breaking" +:+ nl +:+ "* old API removed (e5)" +:+ nl +:+
    nl +:+ "### Fix" +:+ nl +:+ "* Typo (b2)" +:+ nl +:+
    nl +:+ "### Feature" +:+ nl +:+ "* Remove old API (e5)" +:+ nl.
Proof. reflexivity. Qed.

(** A key that begins above the ASCII range is capitalized like any other. *)
Example markdown_latin_key :
  markdown_changelog Sample.U_latin "1.0.0"
    [("breaking", []); (Sample.e_acute +:+ "COLE", [("b2", "Typo")])] false
  = nl +:+ "### " +:+ Sample.E_acute +:+ "cole" +:+ nl +:+ "* Typo (b2)" +:+ nl.
Proof. reflexivity. Qed.

Example markdown_no_entries :
  markdown_changelog Sample.U "1.0.0" [("breaking", [])] false = EmptyString.
Proof. reflexivity. Qed.

(** C3 as the specification states it fails on the code: for the key
    "fixUp" the header the code writes is "Fixup", where the statement
    promises "FixUp". *)
Lemma markdown_changelog_counterexample :
  (markdown_changelog Sample.U "1.0.0" [("breaking", []); ("fixUp", [("b2", "Typo")])] false
   = nl +:+ "### Fixup" +:+ nl +:+ "* Typo (b2)" +:+ nl
   /\ spec_section_header Sample.U "fixUp" = "FixUp"
   /\ String.eqb
        (markdown_changelog Sample.U "1.0.0"
           [("breaking", []); ("fixUp", [("b2", "Typo")])] false)
        (nl +:+ "### " +:+ spec_section_header Sample.U "fixUp" +:+ nl
         +:+ "* Typo (b2)" +:+ nl)
      = false)
  /\ (forall U, ascii_laws U ->
       markdown_changelog U "1.0.0" [("breaking", []); ("fixUp", [("b2", "Typo")])] false
       = nl +:+ "### Fixup" +:+ nl +:+ "* Typo (b2)" +:+ nl
       /\ nl +:+ "### " +:+ spec_section_header U "fixUp" +:+ nl +:+ "* Typo (b2)" +:+ nl
          = nl +:+ "### FixUp" +:+ nl +:+ "* Typo (b2)" +:+ nl).
Proof.
  split; [repeat split|].
  intros U HU. split.
  - unfold markdown_changelog.
    cbn [fold_left render_section length Nat.eqb render_items fst snd].
    by rewrite (capitalize_ascii U HU "fixUp" eq_refl).
  - unfold spec_section_header. by rewrite (capital_ascii U "f" "ixUp" HU eq_refl).
Qed.

(** ** The orchestrator *)

Section RunFacts.

Import Run.

Variable U : Py.Unicode.

Lemma quiet_ret {A} (a : A) : quiet (mret a : M A).
Proof. intros tr. exists []. by rewrite app_nil_r. Qed.

Lemma quiet_raise {A} (e : exn) : quiet (raise e : M A).
Proof. intros tr. exists []. by rewrite app_nil_r. Qed.

Lemma quiet_emit (e : event) : is_mutation e = false -> quiet (emit e).
Proof. intros He tr. exists [e]. split; [done|]. by constructor. Qed.

Lemma quiet_bind {A B} (m : M A) (k : A -> M B) :
  quiet m -> (forall a, quiet (k a)) -> quiet (m ≫= k).
Proof.
  intros Hm Hk tr. destruct (Hm tr) as (evs & Htr & Hevs).
  unfold mbind, M_bind, m_bind. destruct (m tr) as [[a|n|e] tr'] eqn:E; simpl in Htr.
  - destruct (Hk a tr') as (evs' & Htr' & Hevs').
    exists (evs ++ evs'). rewrite Htr', Htr, app_assoc. split; [done|].
    by apply Forall_app.
  - exists evs. done.
  - exists evs. done.
Qed.

Lemma quiet_answer {A} (e : exn) (o : option A) : quiet (answer e o).
Proof. destruct o; [apply quiet_ret | apply quiet_raise]. Qed.

Lemma quiet_of_res {A} (r : res A) : quiet (of_res r).
Proof. destruct r; [apply quiet_ret | apply quiet_raise]. Qed.

Lemma quiet_print (text : string) : quiet (print text).
Proof. by apply quiet_emit. Qed.

Lemma quiet_git (w : World) (args : list string) :
  is_mutation (GitCmd args) = false -> quiet (git w args).
Proof.
  intros Hargs. apply quiet_bind; [by apply quiet_emit|].
  intros _. apply quiet_answer.
Qed.

Lemma quiet_get_repo (w : World) : quiet (get_repo w).
Proof.
  unfold get_repo, environ_get.
  apply quiet_bind.
  { apply quiet_bind; [by apply quiet_emit | intros _; apply quiet_ret]. }
  intros [repo|]; [apply quiet_ret|].
  apply quiet_bind; [by apply quiet_git|]. intros origin.
  apply quiet_bind; [apply quiet_of_res|]. intros [? loc].
  apply quiet_bind; [apply quiet_of_res|]. intros [repo ?].
  apply quiet_ret.
Qed.

Lemma quiet_collect (tag_hash : string) (items : list (string * string))
    (commits : list Commit) :
  quiet (collect tag_hash items commits).
Proof.
  revert commits. induction items as [|[commit_hash commit_message] items IH];
    intros commits; simpl.
  - apply quiet_ret.
  - destruct (String.eqb commit_hash tag_hash); [apply quiet_ret|].
    apply quiet_bind; [apply quiet_print|]. intros _. apply IH.
Qed.

(** Up to the end of the collection the script only reads and prints. *)
Lemma quiet_gather (w : World) : quiet (gather U w).
Proof.
  unfold gather, environ_item, read_text.
  apply quiet_bind.
  { apply quiet_bind; [by apply quiet_emit | intros _; apply quiet_answer]. }
  intros token. apply quiet_bind.
  { apply quiet_bind; [by apply quiet_emit | intros _; apply quiet_answer]. }
  intros current_version.
  apply quiet_bind; [by apply quiet_git|]. intros out.
  apply quiet_bind; [apply quiet_print|]. intros _.
  apply quiet_bind; [by apply quiet_git|]. intros out'.
  apply quiet_bind; [apply quiet_print|]. intros _.
  apply quiet_bind; [apply quiet_get_repo|]. intros repo.
  apply quiet_bind; [apply quiet_print|]. intros _.
  apply quiet_bind.
  { apply quiet_bind; [by apply quiet_emit | intros _; apply quiet_answer]. }
  intros items.
  apply quiet_bind; [apply quiet_collect|]. intros commits.
  apply quiet_ret.
Qed.

(** A run of [main] that does not get past the collection ends in an
    exception. *)
Lemma main_unfold LEVELS angular_parser get_new_version (w : World) tr :
  main U LEVELS angular_parser get_new_version w tr =
    match gather U w tr with
    | (Returned (current_version, repo, commits), tr') =>
        release U LEVELS angular_parser get_new_version w current_version repo commits tr'
    | (SysExit n, tr') => (SysExit n, tr')
    | (Uncaught e, tr') => (Uncaught e, tr')
    end.
Proof.
  unfold main, mbind, M_bind, m_bind.
  destruct (gather U w tr) as [[[[cv repo] commits]|n|e] tr']; done.
Qed.

End RunFacts.

(** C5. When the collection ends with more than 100 commits, [main] prints
    the notice and leaves through [sys.exit(1)]: the exit status is not 0,
    and the whole trace of the run holds no write of the version file, no
    [git add], [commit], [tag] or [push], and no release posted. *)
Theorem main_safety_cap (U : Py.Unicode) (LEVELS : gmap Z string)
    (angular_parser : parser)
    (get_new_version : string -> string -> res string) (w : Run.World)
    (current_version repo : string) (commits : list Commit)
    (tr : list Run.event) :
  Run.gather U w [] = (Run.Returned (current_version, repo, commits), tr) ->
  (100 < length commits)%nat ->
  let run := Run.main U LEVELS angular_parser get_new_version w [] in
  run = (Run.SysExit 1,
         tr ++ [Run.Print (pretty (length commits) +:+ " are a lot. Aborting!")])
  /\ Run.exit_status run.1 <> 0%Z
  /\ Forall (fun e => Run.is_mutation e = false) run.2.
Proof.
  intros Hgather Hmany run.
  assert (Hrun : run = (Run.SysExit 1,
            tr ++ [Run.Print (pretty (length commits) +:+ " are a lot. Aborting!")])).
  { unfold run. rewrite main_unfold, Hgather. unfold Run.release.
    apply Nat.ltb_lt in Hmany. rewrite Hmany. reflexivity. }
  rewrite Hrun. simpl. split; [done|]. split; [done|].
  destruct (quiet_gather U w []) as (evs & Htr & Hevs).
  rewrite Hgather in Htr. simpl in Htr. subst tr.
  apply Forall_app. split; [done|]. by repeat constructor.
Qed.

Lemma main_safety_cap_witness :
  let run := Run.main Sample.U Sample.LEVELS Sample.p Sample.get_new_version (Sample.world 101) [] in
  run = (Run.SysExit 1,
         (Run.gather Sample.U (Sample.world 101) []).2
         ++ [Run.Print (pretty (length (replicate 101
               (Commit__init__ "0123456789abcdef" "feat: add login")))
             +:+ " are a lot. Aborting!")])
  /\ Run.exit_status run.1 <> 0%Z
  /\ Forall (fun e => Run.is_mutation e = false) run.2.
Proof.
  refine (main_safety_cap Sample.U Sample.LEVELS Sample.p Sample.get_new_version
            (Sample.world 101) "1.2.3" "acts/rt"
            (replicate 101 (Commit__init__ "0123456789abcdef" "feat: add login"))
            (Run.gather Sample.U (Sample.world 101) []).2 _ _).
  - vm_compute. reflexivity.
  - vm_compute. lia.
Defined.

(** With commits under the cap and a bump, the run goes on to the
    mutations, in the order of the script. *)
Example main_release_run :
  let run := Run.main Sample.U Sample.LEVELS Sample.p Sample.get_new_version (Sample.world 1) [] in
  run.1 = Run.Returned tt
  /\ filter (fun e => Run.is_mutation e = true) run.2
     = [Run.WriteText "version_number" "1.3.0";
        Run.GitCmd ["add"; "version_number"];
        Run.GitCmd ["commit"; "-m"; "Bump to version v1.3.0"];
        Run.GitCmd ["tag"; "v1.3.0"];
        Run.GitCmd ["push"; "--follow-tags"];
        Run.GhPost "/repos/acts/rt/releases"
          ("## v1.3.0" +:+ nl +:+ nl +:+ "### Feature" +:+ nl
           +:+ "* Add login (0123456789abcdef)" +:+ nl)
          "v1.3.0"].
Proof. vm_compute. split; reflexivity. Qed.

(** ** The version of the nearest tag *)

Section DescribeFacts.

Import Describe.

Variable U : Py.Unicode.

Lemma digits_upto_nil (fuel : nat) :
  digits_upto U fuel EmptyString = (EmptyString, EmptyString).
Proof. by destruct fuel. Qed.

Lemma digits_upto_cons (fuel : nat) (b : ascii) (r : string) :
  digits_upto U (S fuel) (String b r) =
    if Py.is_decimal U (Py.first_char (String b r))
    then let '(d, rest) := digits_upto U fuel (Py.str_tail (String b r)) in
         (Py.first_char (String b r) +:+ d, rest)
    else (EmptyString, String b r).
Proof. reflexivity. Qed.

Lemma ascii_digits_cons (c : ascii) (d : string) :
  ascii_digits (String c d) = Py.ascii_digit c && ascii_digits d.
Proof. reflexivity. Qed.

Lemma ascii_digit_is_ascii (c : ascii) :
  Py.ascii_digit c = true -> Py.is_ascii c = true.
Proof.
  unfold Py.ascii_digit, Py.is_ascii. cbv zeta.
  intros [_ H%Nat.leb_le]%andb_true_iff. apply Nat.ltb_lt. lia.
Qed.

(** The run of digits taken is made of decimal digits, and no decimal digit
    follows it. *)
Lemma digits_upto_spec (fuel : nat) (s d r : string) :
  (String.length s <= fuel)%nat ->
  digits_upto U fuel s = (d, r) ->
  s = d +:+ r /\ all_decimal U d = true /\ no_digit_ahead U r = true.
Proof.
  revert s d r. induction fuel as [|fuel IH]; intros s d r Hlen.
  - destruct s as [|b s']; [|simpl in Hlen; lia].
    intros [= <- <-]. done.
  - destruct s as [|b s'].
    + intros [= <- <-]. done.
    + rewrite digits_upto_cons.
      destruct (Py.is_decimal U (Py.first_char (String b s'))) eqn:Hc.
      * destruct (digits_upto U fuel (Py.str_tail (String b s'))) as [d' r'] eqn:Hs.
        intros Heq.
        assert (Hd : d = Py.first_char (String b s') +:+ d') by congruence.
        assert (Hr : r = r') by congruence. subst d r. clear Heq.
        destruct (IH (Py.str_tail (String b s')) d' r')
          as (Heq & Hd & Hr); [|done|].
        { pose proof (str_tail_length b s'). simpl in Hlen. lia. }
        destruct (first_char_app b s' d' r' Heq) as [Hfirst Htail].
        split; [|split; [|done]].
        -- rewrite str_app_assoc, <- Heq. symmetry.
           apply (first_char_tail (String b s')).
        -- unfold all_decimal.
           destruct (Py.first_char (String b s') +:+ d') as [|b0 r0] eqn:Hfd.
           { done. }
           rewrite chars_cons, Hfirst, Htail. cbn [forallb]. by rewrite Hc.
      * intros [= <- <-]. split; [done|]. split; [done|].
        unfold no_digit_ahead. by rewrite Hc.
Qed.

Lemma digits1_spec (s d r : string) :
  digits1 U s = Some (d, r) ->
  s = d +:+ r /\ all_decimal U d = true /\ d <> EmptyString
  /\ no_digit_ahead U r = true.
Proof.
  unfold digits1, digits. destruct (digits_upto U (String.length s) s) as [d' r'] eqn:Hs.
  destruct (digits_upto_spec _ s d' r' (le_n _) Hs) as (-> & Hd & Hr).
  destruct d' as [|c d']; [done|]. intros [= <- <-]. done.
Qed.

Lemma literal_cons (c : ascii) (r : string) : literal c (String c r) = Some r.
Proof. simpl. by rewrite Ascii.eqb_refl. Qed.

Lemma literal_spec (c : ascii) (s r : string) :
  literal c s = Some r -> s = String c r.
Proof.
  destruct s as [|c' s]; simpl; [done|].
  destruct (Ascii.eqb_spec c' c) as [->|]; [|done]. by intros [= ->].
Qed.

Lemma match_version_spec (raw v : string) :
  match_version U raw = Some v ->
  exists d1 d2 d3 tail,
    raw = "v" +:+ v +:+ tail
    /\ v = d1 +:+ "." +:+ d2 +:+ "." +:+ d3
    /\ (all_decimal U d1 = true /\ d1 <> EmptyString)
    /\ (all_decimal U d2 = true /\ d2 <> EmptyString)
    /\ (all_decimal U d3 = true /\ d3 <> EmptyString)
    /\ no_digit_ahead U tail = true.
Proof.
  unfold match_version. intros Hm.
  destruct (literal "v" raw) as [r0|] eqn:L0; simpl in Hm; [|done].
  destruct (digits1 U r0) as [[d1 r1]|] eqn:D1; simpl in Hm; [|done].
  destruct (literal "." r1) as [r1'|] eqn:L1; simpl in Hm; [|done].
  destruct (digits1 U r1') as [[d2 r2]|] eqn:D2; simpl in Hm; [|done].
  destruct (literal "." r2) as [r2'|] eqn:L2; simpl in Hm; [|done].
  destruct (digits1 U r2') as [[d3 r3]|] eqn:D3; simpl in Hm; [|done].
  injection Hm as <-.
  apply literal_spec in L0 as ->. apply literal_spec in L1 as ->.
  apply literal_spec in L2 as ->.
  apply digits1_spec in D1 as (-> & ? & ? & _).
  apply digits1_spec in D2 as (-> & ? & ? & _).
  apply digits1_spec in D3 as (-> & ? & ? & ?).
  exists d1, d2, d3, r3. split_and!; try done.
  change ("v" +:+ (d1 +:+ "." +:+ d2 +:+ "." +:+ d3) +:+ r3)
    with (String "v" ((d1 +:+ String "." (d2 +:+ String "." d3)) +:+ r3)).
  f_equal. rewrite str_app_assoc. f_equal. rewrite str_app_cons. f_equal.
  rewrite str_app_assoc. f_equal.
Qed.

Hypothesis laws : ascii_laws U.

Lemma no_digit_ahead_ascii (b : ascii) (r : string) :
  Py.is_ascii b = true -> Py.ascii_digit b = false ->
  no_digit_ahead U (String b r) = true.
Proof.
  intros Hb Hd. unfold no_digit_ahead.
  by rewrite (first_char_ascii b r Hb), (decimal_ascii U laws b Hb), Hd.
Qed.

(** A run of the digits 0 to 9 is taken whole. *)
Lemma digits_upto_app (d rest : string) (fuel : nat) :
  ascii_digits d = true -> no_digit_ahead U rest = true ->
  (String.length (d +:+ rest) <= fuel)%nat ->
  digits_upto U fuel (d +:+ rest) = (d, rest).
Proof.
  intros Hd Hrest. revert fuel. induction d as [|c d IH]; intros fuel Hlen.
  - rewrite str_app_nil_l in *. destruct rest as [|b r]; [apply digits_upto_nil|].
    destruct fuel as [|fuel]; [simpl in Hlen; lia|].
    rewrite digits_upto_cons. unfold no_digit_ahead in Hrest.
    by destruct (Py.is_decimal U (Py.first_char (String b r))).
  - rewrite ascii_digits_cons in Hd. apply andb_true_iff in Hd as [Hc Hd].
    rewrite str_app_cons in *.
    destruct fuel as [|fuel]; [simpl in Hlen; lia|].
    pose proof (ascii_digit_is_ascii c Hc) as Ha.
    rewrite digits_upto_cons, (first_char_ascii c _ Ha), (str_tail_ascii c _ Ha),
      (decimal_ascii U laws c Ha), Hc, (IH Hd fuel).
    + done.
    + simpl in Hlen. lia.
Qed.

Lemma digits1_app (d rest : string) :
  ascii_digits d = true -> d <> EmptyString -> no_digit_ahead U rest = true ->
  digits1 U (d +:+ rest) = Some (d, rest).
Proof.
  intros Hd Hne Hrest. unfold digits1, digits.
  rewrite digits_upto_app by done. by destruct d.
Qed.

(** The pattern matches a tag name of three dotted numbers, whatever follows
    that is not a digit, and yields the numbers. *)
Lemma match_version_app (d1 d2 d3 rest : string) :
  ascii_digits d1 = true -> d1 <> EmptyString ->
  ascii_digits d2 = true -> d2 <> EmptyString ->
  ascii_digits d3 = true -> d3 <> EmptyString ->
  no_digit_ahead U rest = true ->
  match_version U ("v" +:+ d1 +:+ "." +:+ d2 +:+ "." +:+ d3 +:+ rest)
  = Some (d1 +:+ "." +:+ d2 +:+ "." +:+ d3).
Proof.
  intros H1 N1 H2 N2 H3 N3 Hrest. unfold match_version.
  change ("v" +:+ d1 +:+ "." +:+ d2 +:+ "." +:+ d3 +:+ rest)
    with (String "v" (d1 +:+ String "." (d2 +:+ String "." (d3 +:+ rest)))).
  rewrite literal_cons. simpl.
  rewrite (digits1_app d1); [|done..|by apply no_digit_ahead_ascii]. simpl.
  rewrite (digits1_app d2); [|done..|by apply no_digit_ahead_ascii]. simpl.
  rewrite (digits1_app d3) by done. done.
Qed.

End DescribeFacts.

Lemma occurs_cons (c x : ascii) (s : string) :
  occurs c (String x s) <-> x = c \/ occurs c s.
Proof. reflexivity. Qed.

Lemma occurs_app (c : ascii) (a b : string) :
  occurs c (a +:+ b) <-> occurs c a \/ occurs c b.
Proof.
  induction a as [|x a IH].
  - rewrite str_app_nil_l. unfold occurs at 2. simpl. tauto.
  - rewrite str_app_cons, !occurs_cons, IH. tauto.
Qed.

Lemma first_field_absent (sep : ascii) (a b : string) :
  ~ occurs sep a ->
  Run.first_field sep (a +:+ b) = a +:+ Run.first_field sep b.
Proof.
  induction a as [|x a IH]; intros Ha.
  - by rewrite !str_app_nil_l.
  - rewrite occurs_cons in Ha. rewrite !str_app_cons. simpl.
    destruct (Ascii.eqb_spec x sep) as [->|_]; [tauto|].
    rewrite IH by tauto. done.
Qed.

Lemma first_field_no_sep (sep : ascii) (s : string) :
  ~ occurs sep (Run.first_field sep s).
Proof.
  induction s as [|x s IH]; simpl; [by intros []|].
  destruct (Ascii.eqb_spec x sep) as [->|Hne]; [by intros []|].
  rewrite occurs_cons. tauto.
Qed.

Lemma ascii_digits_no_dash (d : string) : ascii_digits d = true -> ~ occurs "-" d.
Proof.
  induction d as [|c d IH]; [by intros _ []|].
  rewrite ascii_digits_cons, occurs_cons. intros [Hc Hd]%andb_true_iff [->|Hin].
  - done.
  - by apply IH.
Qed.

(** X1. When [git describe] prints a v, three non-empty runs of the digits
    0 to 9 separated by dots, and then a text whose part before the first
    dash does not begin with a decimal digit (a dash and the distance to the
    tag, or the end of the line), [get_current_version] returns the three
    dotted numbers, without the v and without what follows. *)
Theorem get_current_version_tagged (U : Py.Unicode) (w : Run.World)
    (d1 d2 d3 rest : string) :
  ascii_laws U ->
  Run.git_output w ["describe"]
    = Some ("v" +:+ d1 +:+ "." +:+ d2 +:+ "." +:+ d3 +:+ rest) ->
  ascii_digits d1 = true -> d1 <> EmptyString ->
  ascii_digits d2 = true -> d2 <> EmptyString ->
  ascii_digits d3 = true -> d3 <> EmptyString ->
  no_digit_ahead U (Run.first_field "-" rest) = true ->
  Describe.get_current_version U w
  = (Describe.Version (d1 +:+ "." +:+ d2 +:+ "." +:+ d3),
     [Run.GitCmd ["describe"]]).
Proof.
  intros HU Hout H1 N1 H2 N2 H3 N3 Hrest.
  unfold Describe.get_current_version. rewrite Hout.
  assert (Hfield :
    Run.first_field "-" ("v" +:+ d1 +:+ "." +:+ d2 +:+ "." +:+ d3 +:+ rest)
    = "v" +:+ d1 +:+ "." +:+ d2 +:+ "." +:+ d3 +:+ Run.first_field "-" rest).
  { change ("v" +:+ d1 +:+ "." +:+ d2 +:+ "." +:+ d3 +:+ rest)
      with (String "v" (d1 +:+ String "." (d2 +:+ String "." (d3 +:+ rest)))).
    simpl. rewrite (first_field_absent "-" d1) by by apply ascii_digits_no_dash.
    simpl. rewrite (first_field_absent "-" d2) by by apply ascii_digits_no_dash.
    simpl. rewrite (first_field_absent "-" d3) by by apply ascii_digits_no_dash.
    done. }
  cbv zeta. by rewrite Hfield, match_version_app.
Qed.

Lemma get_current_version_tagged_witness :
  Describe.get_current_version Sample.U SampleRun.world_ssh
  = (Describe.Version ("1" +:+ "." +:+ "2" +:+ "." +:+ "3"),
     [Run.GitCmd ["describe"]]).
Proof.
  apply (get_current_version_tagged Sample.U SampleRun.world_ssh "1" "2" "3"
           ("-3-g0123abc" +:+ nl) sample_laws); done.
Defined.

(** X2. Whenever [get_current_version] returns a version, it is three
    non-empty runs of decimal digits separated by dots, and the text
    [git describe] printed, up to its first dash, is a v, that version, and
    a tail that does not begin with a decimal digit. *)
Theorem get_current_version_sound (U : Py.Unicode) (w : Run.World)
    (v : string) (tr : list Run.event) :
  Describe.get_current_version U w = (Describe.Version v, tr) ->
  exists described d1 d2 d3 tail,
    Run.git_output w ["describe"] = Some described
    /\ Run.first_field "-" described = "v" +:+ v +:+ tail
    /\ v = d1 +:+ "." +:+ d2 +:+ "." +:+ d3
    /\ (all_decimal U d1 = true /\ d1 <> EmptyString)
    /\ (all_decimal U d2 = true /\ d2 <> EmptyString)
    /\ (all_decimal U d3 = true /\ d3 <> EmptyString)
    /\ no_digit_ahead U tail = true.
Proof.
  unfold Describe.get_current_version.
  destruct (Run.git_output w ["describe"]) as [described|]; [|done].
  cbv zeta.
  destruct (Describe.match_version U (Run.first_field "-" described)) as [v'|] eqn:Hm;
    [|done].
  intros [= <- _].
  destruct (match_version_spec U _ _ Hm) as (d1 & d2 & d3 & tail & Hraw & Hv & ?).
  exists described, d1, d2, d3, tail. done.
Qed.

Lemma get_current_version_sound_witness :
  exists described d1 d2 d3 tail,
    Run.git_output SampleRun.world_ssh ["describe"] = Some described
    /\ Run.first_field "-" described = "v" +:+ "1.2.3" +:+ tail
    /\ "1.2.3" = d1 +:+ "." +:+ d2 +:+ "." +:+ d3
    /\ (all_decimal Sample.U d1 = true /\ d1 <> EmptyString)
    /\ (all_decimal Sample.U d2 = true /\ d2 <> EmptyString)
    /\ (all_decimal Sample.U d3 = true /\ d3 <> EmptyString)
    /\ no_digit_ahead Sample.U tail = true.
Proof.
  exact (get_current_version_sound Sample.U SampleRun.world_ssh "1.2.3"
           [Run.GitCmd ["describe"]] eq_refl).
Defined.

(** A decimal digit above the ASCII range is a digit of the pattern too: with
    tables that know the Arabic-Indic digit three, a tag that ends in it
    matches. *)
Example get_current_version_unicode_digit :
  Describe.match_version Sample.U_digits ("v1.2." +:+ Sample.arabic_three)
  = Some ("1.2." +:+ Sample.arabic_three)
  /\ Describe.match_version Sample.U_digits ("v1.2.3" +:+ Sample.arabic_three +:+ "-4")
     = Some ("1.2.3" +:+ Sample.arabic_three).
Proof. split; reflexivity. Qed.

(** A tag that is not a v followed by three dotted numbers ends the function
    in an [AttributeError]. *)
Example get_current_version_no_match :
  Describe.match_version Sample.U "release-1.2" = None
  /\ Describe.match_version Sample.U "v1.2" = None
  /\ Describe.match_version Sample.U "v1.2.x" = None.
Proof. repeat split. Qed.

(** ** The repository name *)

Lemma split1_found (sep : ascii) (a b : string) :
  ~ occurs sep a -> Run.split1 sep (a +:+ String sep b) = Ok (a, b).
Proof.
  induction a as [|x a IH]; intros Ha.
  - rewrite str_app_nil_l. simpl. by rewrite Ascii.eqb_refl.
  - rewrite occurs_cons in Ha. rewrite str_app_cons. simpl.
    destruct (Ascii.eqb_spec x sep) as [->|_]; [tauto|].
    rewrite IH by tauto. done.
Qed.

Lemma split1_absent (sep : ascii) (s : string) :
  ~ occurs sep s -> Run.split1 sep s = Raise ValueError.
Proof.
  induction s as [|x s IH]; intros Hs; simpl; [done|].
  rewrite occurs_cons in Hs.
  destruct (Ascii.eqb_spec x sep) as [->|_]; [tauto|].
  rewrite IH by tauto. done.
Qed.

(** [get_repo], call by call. *)
Lemma get_repo_unfold (w : Run.World) (tr : list Run.event) :
  Run.get_repo w tr =
    match Run.environ w !! "GITHUB_REPOSITORY" with
    | Some repo => (Run.Returned repo, tr ++ [Run.Getenv "GITHUB_REPOSITORY"])
    | None =>
        (match Run.git_output w ["remote"; "get-url"; "origin"] with
         | None => Run.Uncaught ErrorReturnCode
         | Some origin =>
             match Run.split1 ":" origin with
             | Raise e => Run.Uncaught e
             | Ok (_, loc) =>
                 match Run.split1 "." loc with
                 | Raise e => Run.Uncaught e
                 | Ok (repo, _) => Run.Returned repo
                 end
             end
         end,
         tr ++ [Run.Getenv "GITHUB_REPOSITORY";
                Run.GitCmd ["remote"; "get-url"; "origin"]])
    end.
Proof.
  unfold Run.get_repo, Run.environ_get, Run.git, Run.emit, Run.answer, Run.of_res,
    mbind, mret, Run.M_bind, Run.M_ret, Run.m_bind, Run.m_ret, Run.raise.
  destruct (Run.environ w !! "GITHUB_REPOSITORY") as [repo|]; [done|].
  rewrite <- app_assoc. simpl.
  destruct (Run.git_output w ["remote"; "get-url"; "origin"]) as [origin|]; [|done].
  destruct (Run.split1 ":" origin) as [[host loc]|e]; [|done].
  destruct (Run.split1 "." loc) as [[repo ext]|e]; done.
Qed.

(** X3. Without [GITHUB_REPOSITORY] in the environment, [get_repo] asks git
    for the origin and returns what stands between its first colon and the
    first dot after that colon. *)
Theorem get_repo_from_origin (w : Run.World) (tr : list Run.event)
    (host path ext : string) :
  Run.environ w !! "GITHUB_REPOSITORY" = None ->
  Run.git_output w ["remote"; "get-url"; "origin"]
    = Some (host +:+ ":" +:+ path +:+ "." +:+ ext) ->
  ~ occurs ":" host -> ~ occurs "." path ->
  Run.get_repo w tr
  = (Run.Returned path,
     tr ++ [Run.Getenv "GITHUB_REPOSITORY";
            Run.GitCmd ["remote"; "get-url"; "origin"]]).
Proof.
  intros Henv Hgit Hhost Hpath. rewrite get_repo_unfold, Henv, Hgit.
  change (host +:+ ":" +:+ path +:+ "." +:+ ext)
    with (host +:+ String ":" (path +:+ String "." ext)).
  rewrite split1_found by done. rewrite split1_found by done. done.
Qed.

Lemma not_occurs_decide (c : ascii) (s : string) :
  forallb (fun x => negb (Ascii.eqb x c)) (list_ascii_of_string s) = true ->
  ~ occurs c s.
Proof.
  intros Hall Hin. rewrite forallb_forall in Hall.
  specialize (Hall c Hin). by rewrite Ascii.eqb_refl in Hall.
Qed.

Lemma get_repo_from_origin_witness :
  Run.get_repo SampleRun.world_ssh []
  = (Run.Returned "acts-project/release-test",
     [] ++ [Run.Getenv "GITHUB_REPOSITORY";
            Run.GitCmd ["remote"; "get-url"; "origin"]]).
Proof.
  apply (get_repo_from_origin SampleRun.world_ssh [] "git@github.com" "acts-project/release-test"
           ("git" +:+ nl)).
  - reflexivity.
  - reflexivity.
  - apply not_occurs_decide. reflexivity.
  - apply not_occurs_decide. reflexivity.
Defined.

(** X4. Without [GITHUB_REPOSITORY], an origin that holds no colon, or no
    dot after its first colon, ends [get_repo] in a [ValueError], after the
    two reads. *)
Theorem get_repo_malformed_origin (w : Run.World) (tr : list Run.event)
    (origin : string) :
  Run.environ w !! "GITHUB_REPOSITORY" = None ->
  Run.git_output w ["remote"; "get-url"; "origin"] = Some origin ->
  ~ occurs ":" origin
  \/ (exists host loc, origin = host +:+ ":" +:+ loc
                       /\ ~ occurs ":" host /\ ~ occurs "." loc) ->
  Run.get_repo w tr
  = (Run.Uncaught ValueError,
     tr ++ [Run.Getenv "GITHUB_REPOSITORY";
            Run.GitCmd ["remote"; "get-url"; "origin"]]).
Proof.
  intros Henv Hgit Hbad. rewrite get_repo_unfold, Henv, Hgit.
  destruct Hbad as [Hcolon|(host & loc & -> & Hhost & Hloc)].
  - by rewrite split1_absent.
  - change (host +:+ ":" +:+ loc) with (host +:+ String ":" loc).
    rewrite split1_found by done. by rewrite split1_absent.
Qed.

Lemma get_repo_malformed_origin_witness :
  Run.get_repo SampleRun.world_local []
  = (Run.Uncaught ValueError,
     [] ++ [Run.Getenv "GITHUB_REPOSITORY";
            Run.GitCmd ["remote"; "get-url"; "origin"]]).
Proof.
  apply (get_repo_malformed_origin SampleRun.world_local []
           ("/srv/git/release-test.git" +:+ nl)).
  - reflexivity.
  - reflexivity.
  - left. apply not_occurs_decide. reflexivity.
Defined.

(** ** The printed form of a commit *)

Lemma first_field_normalized (raw : string) :
  exists line,
    Run.first_field LF (_normalize raw) = line
    /\ ~ occurs CR line /\ ~ occurs LF line
    /\ (raw = line
        \/ exists b tail, (b = CR \/ b = LF) /\ raw = line +:+ String b tail).
Proof.
  unfold _normalize, Py.replace.
  induction raw as [|c raw (line & Hline & Hcr & Hlf & Hraw)]; simpl.
  - exists EmptyString. split_and!; [done|by intros []|by intros []|by left].
  - destruct (Ascii.eqb_spec c CR) as [->|Hc].
    + exists EmptyString. split_and!; [done|by intros []|by intros []|].
      right. exists CR, raw. split; [by left|done].
    + destruct (Ascii.eqb_spec c LF) as [->|Hc'].
      * exists EmptyString. split_and!; [done|by intros []|by intros []|].
        right. exists LF, raw. split; [by right|done].
      * exists (String c line). rewrite Hline. split_and!.
        -- done.
        -- rewrite occurs_cons. tauto.
        -- rewrite occurs_cons. tauto.
        -- destruct Hraw as [->|(b & tail & Hb & ->)]; [by left|].
           right. exists b, tail. by rewrite str_app_cons.
Qed.

(** X5. The printed form of a constructed commit shows at most the first
    eight characters of the sha and the raw message up to its first carriage
    return or line feed, which it does not include: the message part is one
    line. *)
Theorem commit_str_first_line (raw_sha raw_message : string) :
  exists line,
    Run.Commit__str__ (Commit__init__ raw_sha raw_message)
    = "Commit(sha='" +:+ Py.str_take 8 raw_sha +:+ "', message='" +:+ line +:+ "')"
    /\ ~ occurs CR line /\ ~ occurs LF line
    /\ (raw_message = line
        \/ exists b tail, (b = CR \/ b = LF)
                          /\ raw_message = line +:+ String b tail)
    /\ (String.length (Py.str_take 8 raw_sha) <= 8)%nat.
Proof.
  destruct (first_field_normalized raw_message) as (line & Hline & Hcr & Hlf & Hraw).
  exists line. split_and!; try done.
  - unfold Run.Commit__str__. simpl. by rewrite Hline.
  - generalize 8%nat. intros n. revert raw_sha.
    induction n as [|n IH]; intros [|c s]; simpl; try lia.
    specialize (IH s). lia.
Qed.

Example commit_str_crlf :
  Run.Commit__str__
    (Commit__init__ "0123456789abcdef"
       ("feat: add login" +:+ String CR (String LF "body")))
  = "Commit(sha='01234567', message='feat: add login')".
Proof. reflexivity. Qed.

(** ** The collection of commits *)

Lemma collect_prefix (tag_hash : string) (before rest : list (string * string))
    (acc : list Commit) (tr : list Run.event) :
  tag_hash ∉ before.*1 ->
  Run.collect tag_hash (before ++ rest) acc tr
  = Run.collect tag_hash rest
      (acc ++ map (fun item => Commit__init__ item.1 item.2) before)
      (tr ++ map (fun item =>
                    Run.Print ("- " +:+ Run.Commit__str__ (Commit__init__ item.1 item.2)))
                 before).
Proof.
  revert acc tr. induction before as [|[h m] before IH]; intros acc tr Hnot; simpl.
  - by rewrite !app_nil_r.
  - apply not_elem_of_cons in Hnot as [Hne Hnot]. simpl in Hne.
    destruct (String.eqb_spec h tag_hash) as [->|_]; [done|].
    unfold mbind, Run.M_bind, Run.m_bind, Run.print, Run.emit.
    rewrite IH by done. rewrite <- !app_assoc. done.
Qed.

(** X6. The loop over the listed commits collects, in order and normalized,
    the commits listed before the first one whose sha is the hash of the
    tag, prints one line for each, and stops there; when no listed commit
    has that hash, every listed commit is collected. *)
Theorem collect_until_tag (tag_hash : string) (before after : list (string * string))
    (acc : list Commit) (tr : list Run.event) :
  tag_hash ∉ before.*1 ->
  let commits := map (fun item => Commit__init__ item.1 item.2) before in
  let printed :=
    map (fun item =>
           Run.Print ("- " +:+ Run.Commit__str__ (Commit__init__ item.1 item.2)))
        before in
  (forall commit_message,
     Run.collect tag_hash (before ++ (tag_hash, commit_message) :: after) acc tr
     = (Run.Returned (acc ++ commits), tr ++ printed))
  /\ Run.collect tag_hash before acc tr
     = (Run.Returned (acc ++ commits), tr ++ printed).
Proof.
  intros Hnot commits printed. split.
  - intros commit_message. rewrite collect_prefix by done. simpl.
    by rewrite String.eqb_refl.
  - rewrite <- (app_nil_r before) at 1. by rewrite collect_prefix.
Qed.

Lemma collect_until_tag_witness :
  let before := [("c3", "chore: cleanup"); ("c9", "Merge branch 'main'")] in
  let commits := map (fun item => Commit__init__ item.1 item.2) before in
  let printed :=
    map (fun item =>
           Run.Print ("- " +:+ Run.Commit__str__ (Commit__init__ item.1 item.2)))
        before in
  (forall commit_message,
     Run.collect Sample.tag_hash
       (before ++ (Sample.tag_hash, commit_message) :: [("d0", "fix: older")]) [] []
     = (Run.Returned ([] ++ commits), [] ++ printed))
  /\ Run.collect Sample.tag_hash before [] []
     = (Run.Returned ([] ++ commits), [] ++ printed).
Proof.
  apply (collect_until_tag Sample.tag_hash
           [("c3", "chore: cleanup"); ("c9", "Merge branch 'main'")]
           [("d0", "fix: older")] [] []).
  apply not_elem_of_cons. split; [done|]. apply not_elem_of_cons. split; [done|].
  apply not_elem_of_nil.
Defined.

(** ** Waiting for the tag *)

Section AwaitFacts.

Import Run.

Variable w : World.
Variables repo next_tag : string.

Local Abbreviation url := ("/repos/" +:+ repo +:+ "/tags") (only parsing).

Lemma await_tag_unseen (turns attempt : nat) (tags : list string)
    (tr : list event) :
  forge_tags w attempt url = Some tags -> next_tag ∉ tags ->
  await_tag w repo next_tag (S turns) attempt tr
  = await_tag w repo next_tag turns (S attempt) (tr ++ [GhGet url; Sleep]).
Proof.
  intros Htags Hnot. simpl.
  unfold mbind, M_bind, m_bind, emit, answer. rewrite Htags. simpl.
  rewrite bool_decide_eq_false_2 by done. by rewrite <- app_assoc.
Qed.

Lemma await_tag_seen (turns attempt : nat) (tags : list string)
    (tr : list event) :
  forge_tags w attempt url = Some tags -> next_tag ∈ tags ->
  await_tag w repo next_tag (S turns) attempt tr = (Returned tt, tr ++ [GhGet url]).
Proof.
  intros Htags Hin. simpl.
  unfold mbind, M_bind, m_bind, emit, answer. rewrite Htags. simpl.
  by rewrite bool_decide_eq_true_2.
Qed.

Lemma await_tag_rounds (n turns attempt : nat) (tr : list event) :
  (forall j, (j < n)%nat ->
     exists tags, forge_tags w (attempt + j) url = Some tags /\ next_tag ∉ tags) ->
  await_tag w repo next_tag (n + turns) attempt tr
  = await_tag w repo next_tag turns (attempt + n)
      (tr ++ concat (replicate n [GhGet url; Sleep])).
Proof.
  revert attempt tr. induction n as [|n IH]; intros attempt tr Hunseen.
  - simpl. by rewrite Nat.add_0_r, app_nil_r.
  - destruct (Hunseen 0%nat) as (tags & Htags & Hnot); [lia|].
    rewrite Nat.add_0_r in Htags.
    change (S n + turns)%nat with (S (n + turns)).
    rewrite (await_tag_unseen _ _ tags) by done.
    rewrite IH.
    + rewrite <- app_assoc. simpl. f_equal. lia.
    + intros j Hj. destruct (Hunseen (S j)) as (tags' & Htags' & Hnot'); [lia|].
      exists tags'. split; [|done]. rewrite <- Htags'. f_equal. lia.
Qed.

End AwaitFacts.

(** X7. When the listings of tags succeed and the new tag first shows in the
    listing number [i], with [i] below the number of turns, the wait makes
    [i + 1] listings with a sleep after each of the first [i], and returns. *)
Theorem await_tag_first_seen (w : Run.World) (repo next_tag : string)
    (turns i : nat) (seen : list string) (tr : list Run.event) :
  (i < turns)%nat ->
  (forall j, (j < i)%nat ->
     exists tags, Run.forge_tags w j ("/repos/" +:+ repo +:+ "/tags") = Some tags
                  /\ next_tag ∉ tags) ->
  Run.forge_tags w i ("/repos/" +:+ repo +:+ "/tags") = Some seen ->
  next_tag ∈ seen ->
  Run.await_tag w repo next_tag turns 0 tr
  = (Run.Returned tt,
     tr ++ concat (replicate i [Run.GhGet ("/repos/" +:+ repo +:+ "/tags"); Run.Sleep])
        ++ [Run.GhGet ("/repos/" +:+ repo +:+ "/tags")]).
Proof.
  intros Hi Hunseen Hseen Hin.
  replace turns with (i + S (turns - S i))%nat by lia.
  rewrite await_tag_rounds by (intros j Hj; apply Hunseen; lia).
  rewrite (await_tag_seen _ _ _ _ _ seen) by done.
  by rewrite <- app_assoc.
Qed.

Lemma await_tag_first_seen_witness :
  Run.await_tag (Sample.world 1) "acts/rt" "v1.3.0" 5 0 []
  = (Run.Returned tt,
     [] ++ concat (replicate 2 [Run.GhGet ("/repos/" +:+ "acts/rt" +:+ "/tags"); Run.Sleep])
        ++ [Run.GhGet ("/repos/" +:+ "acts/rt" +:+ "/tags")]).
Proof.
  apply (await_tag_first_seen (Sample.world 1) "acts/rt" "v1.3.0" 5 2 ["v1.3.0"] []).
  - lia.
  - intros j Hj. exists []. split; [|apply not_elem_of_nil].
    destruct j as [|[|j]]; [reflexivity..|lia].
  - reflexivity.
  - left.
Defined.

(** When every listing of tags succeeds and none shows the new tag, the wait
    makes as many listings as it has turns, sleeps after each of them, and
    returns all the same. *)
Lemma await_tag_unseen_all (w : Run.World) (repo next_tag : string)
    (turns : nat) (tr : list Run.event) :
  (forall j, (j < turns)%nat ->
     exists tags, Run.forge_tags w j ("/repos/" +:+ repo +:+ "/tags") = Some tags
                  /\ next_tag ∉ tags) ->
  Run.await_tag w repo next_tag turns 0 tr
  = (Run.Returned tt,
     tr ++ concat (replicate turns
                     [Run.GhGet ("/repos/" +:+ repo +:+ "/tags"); Run.Sleep])).
Proof.
  intros Hunseen.
  replace turns with (turns + 0)%nat at 1 by lia.
  by rewrite await_tag_rounds.
Qed.

(** ** The run after the collection *)

Section ReleaseFacts.

Import Run.

Variable U : Py.Unicode.
Variable LEVELS : gmap Z string.
Variable angular_parser : parser.
Variable get_new_version : string -> string -> res string.
Variable w : World.

Lemma print_all_spec (lines : list string) (tr : list event) :
  print_all lines tr = (Returned tt, tr ++ map Print lines).
Proof.
  revert tr. induction lines as [|l ls IH]; intros tr; simpl.
  - by rewrite app_nil_r.
  - unfold mbind, M_bind, m_bind, print, emit. rewrite IH.
    by rewrite <- app_assoc.
Qed.

(** Under the cap, [release] prints what the evaluator printed and the bump,
    and goes on according to the bump. *)
Lemma release_under_cap (current_version repo : string) (commits : list Commit)
    (bump : option string) (printed : list string) (tr : list event) :
  (length commits <= 100)%nat ->
  evaluate_version_bump LEVELS angular_parser commits = (bump, printed) ->
  release U LEVELS angular_parser get_new_version w current_version repo commits tr
  = match bump with
    | None => (Returned tt,
               tr ++ map Print printed
                  ++ [Print "bump: None"; Print "-> nothing to do"])
    | Some label =>
        let tr1 := tr ++ map Print printed ++ [Print ("bump: " +:+ label)] in
        match get_new_version current_version label with
        | Raise e => (Uncaught e, tr1)
        | Ok next_version =>
            let tr2 := tr1 ++ [Print ("next version: " +:+ next_version)] in
            match generate_changelog U angular_parser commits with
            | Raise e => (Uncaught e, tr2)
            | Ok changes =>
                let md := markdown_changelog U next_version changes true in
                let next_tag := "v" +:+ next_version in
                (print md;;
                 write_text "version_number" next_version;;
                 git w ["add"; "version_number"];;
                 git w ["commit"; "-m"; "Bump to version " +:+ next_tag];;
                 git w ["tag"; next_tag];;
                 git w ["push"; "--follow-tags"];;
                 await_tag w repo next_tag 5 0;;
                 emit (GhPost ("/repos/" +:+ repo +:+ "/releases") md next_tag);;
                 if forge_accepts_release w then mret tt else raise HTTPException)
                  tr2
            end
        end
    end.
Proof.
  intros Hcap Heval. unfold release.
  replace (100 <? length commits)%nat with false
    by (symmetry; apply Nat.ltb_ge; lia).
  rewrite Heval.
  unfold mbind at 1, M_bind at 1, m_bind at 1. rewrite print_all_spec.
  unfold mbind at 1, M_bind at 1, m_bind at 1, print at 1, emit at 1.
  destruct bump as [label|]; simpl.
  - destruct (get_new_version current_version label) as [next_version|e]; simpl.
    + unfold mbind at 1, M_bind at 1, m_bind at 1. unfold of_res at 1.
      unfold mret at 1, M_ret at 1, m_ret at 1.
      unfold mbind at 1, M_bind at 1, m_bind at 1, print at 1, emit at 1.
      destruct (generate_changelog U angular_parser commits) as [changes|e]; simpl.
      * rewrite <- !app_assoc. reflexivity.
      * rewrite <- !app_assoc. reflexivity.
    + rewrite <- !app_assoc. reflexivity.
  - unfold mbind, M_bind, m_bind, print, emit, mret, M_ret, m_ret.
    rewrite <- !app_assoc. reflexivity.
Qed.

End ReleaseFacts.

Lemma mutations_app (a b : list Run.event) :
  mutations (a ++ b) = mutations a ++ mutations b.
Proof. unfold mutations. apply List.filter_app. Qed.

Lemma mutations_quiet (evs : list Run.event) :
  Forall (fun e => Run.is_mutation e = false) evs -> mutations evs = [].
Proof.
  induction 1 as [|e evs He _ IH]; [done|]. unfold mutations in *. simpl.
  by rewrite He.
Qed.

Lemma forall_quiet_mutations (evs : list Run.event) :
  mutations evs = [] -> Forall (fun e => Run.is_mutation e = false) evs.
Proof.
  unfold mutations. induction evs as [|e evs IH]; simpl; [constructor|].
  destruct (Run.is_mutation e) eqn:He; [done|]. intros H. constructor; auto.
Qed.

Lemma performs_quiet {A} (m : Run.M A) : quiet m -> performs m [].
Proof.
  intros Hm tr. destruct (Hm tr) as (evs & Htr & Hevs).
  exists evs. rewrite (mutations_quiet evs Hevs). done.
Qed.

Lemma performs_bind {A B} (m : Run.M A) (k : A -> Run.M B)
    (s1 s2 : list Run.event) :
  performs m s1 -> (forall a, performs (k a) s2) -> performs (m ≫= k) (s1 ++ s2).
Proof.
  intros Hm Hk tr. destruct (Hm tr) as (evs & Htr & Hpre & Hret).
  unfold mbind, Run.M_bind, Run.m_bind.
  destruct (m tr) as [[a|n|e] tr'] eqn:E; simpl in *.
  - subst tr'. destruct (Hk a (tr ++ evs)) as (evs' & Htr' & Hpre' & Hret').
    exists (evs ++ evs'). rewrite Htr', app_assoc, mutations_app.
    rewrite (Hret a eq_refl). split; [done|]. split.
    + by apply prefix_app.
    + intros b Hb. by rewrite (Hret' b Hb).
  - exists evs. split; [done|]. split; [by apply prefix_app_r|done].
  - exists evs. split; [done|]. split; [by apply prefix_app_r|done].
Qed.

Lemma performs_emit (e : Run.event) :
  Run.is_mutation e = true -> performs (Run.emit e) [e].
Proof.
  intros He tr. exists [e]. unfold mutations. simpl. rewrite He. done.
Qed.

Lemma performs_git (w : Run.World) (args : list string) :
  Run.is_mutation (Run.GitCmd args) = true ->
  performs (Run.git w args) [Run.GitCmd args].
Proof.
  intros Hargs. unfold Run.git.
  apply (performs_bind _ _ [Run.GitCmd args] []).
  - by apply performs_emit.
  - intros _. apply performs_quiet, quiet_answer.
Qed.

Lemma quiet_await_tag (w : Run.World) (repo next_tag : string)
    (turns attempt : nat) :
  quiet (Run.await_tag w repo next_tag turns attempt).
Proof.
  revert attempt. induction turns as [|turns IH]; intros attempt; simpl.
  - apply quiet_ret.
  - apply quiet_bind.
    { apply quiet_bind; [by apply quiet_emit | intros _; apply quiet_answer]. }
    intros all_tags. destruct (bool_decide _); [apply quiet_ret|].
    apply quiet_bind; [by apply quiet_emit | intros _; apply IH].
Qed.

(** The tail of a release performs the script. *)
Lemma publish_performs (w : Run.World) (repo next_version md : string) :
  performs
    (Run.print md;;
     Run.write_text "version_number" next_version;;
     Run.git w ["add"; "version_number"];;
     Run.git w ["commit"; "-m"; "Bump to version " +:+ "v" +:+ next_version];;
     Run.git w ["tag"; "v" +:+ next_version];;
     Run.git w ["push"; "--follow-tags"];;
     Run.await_tag w repo ("v" +:+ next_version) 5 0;;
     Run.emit (Run.GhPost ("/repos/" +:+ repo +:+ "/releases") md ("v" +:+ next_version));;
     if Run.forge_accepts_release w then mret tt else Run.raise HTTPException)
    (release_script next_version md repo).
Proof.
  unfold release_script.
  apply (performs_bind _ _ []); [apply performs_quiet, quiet_print|]. intros _.
  apply (performs_bind _ _ [_]); [by apply performs_emit|]. intros _.
  apply (performs_bind _ _ [_]); [by apply performs_git|]. intros _.
  apply (performs_bind _ _ [_]); [by apply performs_git|]. intros _.
  apply (performs_bind _ _ [_]); [by apply performs_git|]. intros _.
  apply (performs_bind _ _ [_]); [by apply performs_git|]. intros _.
  apply (performs_bind _ _ []); [apply performs_quiet, quiet_await_tag|]. intros _.
  apply (performs_bind _ _ [_] []); [by apply performs_emit|]. intros _.
  apply performs_quiet.
  destruct (Run.forge_accepts_release w); [apply quiet_ret | apply quiet_raise].
Qed.

Lemma quiet_prints (lines : list string) :
  Forall (fun e => Run.is_mutation e = false) (map Run.Print lines).
Proof. induction lines; simpl; by constructor. Qed.

Lemma gather_quiet_trace (U : Py.Unicode) (w : Run.World) :
  Forall (fun e => Run.is_mutation e = false) (Run.gather U w []).2.
Proof. destruct (quiet_gather U w []) as (evs & -> & Hevs). done. Qed.

(** X9. When the collection ends with at most 100 commits and the evaluator
    returns no bump, [main] prints the bump and a notice and returns: the
    exit status is 0 and the trace of the run holds no mutation. *)
Theorem main_nothing_to_do (U : Py.Unicode) (LEVELS : gmap Z string)
    (angular_parser : parser)
    (get_new_version : string -> string -> res string) (w : Run.World)
    (current_version repo : string) (commits : list Commit)
    (printed : list string) (tr : list Run.event) :
  Run.gather U w [] = (Run.Returned (current_version, repo, commits), tr) ->
  (length commits <= 100)%nat ->
  evaluate_version_bump LEVELS angular_parser commits = (None, printed) ->
  let run := Run.main U LEVELS angular_parser get_new_version w [] in
  run = (Run.Returned tt,
         tr ++ map Run.Print printed
            ++ [Run.Print "bump: None"; Run.Print "-> nothing to do"])
  /\ Run.exit_status run.1 = 0%Z
  /\ Forall (fun e => Run.is_mutation e = false) run.2.
Proof.
  intros Hgather Hcap Heval run.
  assert (Hrun : run = (Run.Returned tt,
            tr ++ map Run.Print printed
               ++ [Run.Print "bump: None"; Run.Print "-> nothing to do"])).
  { unfold run. rewrite main_unfold, Hgather.
    by rewrite (release_under_cap _ _ _ _ _ _ _ _ None printed tr Hcap Heval). }
  rewrite Hrun. simpl. split; [done|]. split; [done|].
  pose proof (gather_quiet_trace U w) as Hq. rewrite Hgather in Hq. simpl in Hq.
  apply Forall_app. split; [done|]. apply Forall_app. split; [apply quiet_prints|].
  by repeat constructor.
Qed.

Lemma main_nothing_to_do_witness :
  let run := Run.main Sample.U Sample.LEVELS Sample.p Sample.get_new_version
               SampleRun.world_chore [] in
  run = (Run.Returned tt,
         (Run.gather Sample.U SampleRun.world_chore []).2
            ++ map Run.Print ["Unknown bump level 0"]
            ++ [Run.Print "bump: None"; Run.Print "-> nothing to do"])
  /\ Run.exit_status run.1 = 0%Z
  /\ Forall (fun e => Run.is_mutation e = false) run.2.
Proof.
  refine (main_nothing_to_do Sample.U Sample.LEVELS Sample.p Sample.get_new_version
            SampleRun.world_chore "1.2.3" "acts/rt"
            [Commit__init__ "c3" "chore: cleanup";
             Commit__init__ "c9" "Merge branch 'main'"]
            ["Unknown bump level 0"]
            (Run.gather Sample.U SampleRun.world_chore []).2 _ _ _).
  - vm_compute. reflexivity.
  - simpl. lia.
  - vm_compute. reflexivity.
Defined.

(** X10. The mutations of a run of [main], in order, are either none, or a
    prefix of the six of a release: the version file written, [git add],
    [git commit], [git tag], [git push], the release posted. They are there
    only when the collection ended under the cap, the evaluator gave a
    bump, the next version was computed and the changelog built; and a run
    that returns with any mutation made has made all six. *)
Theorem main_mutations_in_order (U : Py.Unicode) (LEVELS : gmap Z string)
    (angular_parser : parser)
    (get_new_version : string -> string -> res string) (w : Run.World) :
  let run := Run.main U LEVELS angular_parser get_new_version w [] in
  mutations run.2 = []
  \/ exists current_version repo commits tr bump printed next_version changes,
       Run.gather U w [] = (Run.Returned (current_version, repo, commits), tr)
       /\ (length commits <= 100)%nat
       /\ evaluate_version_bump LEVELS angular_parser commits = (Some bump, printed)
       /\ get_new_version current_version bump = Ok next_version
       /\ generate_changelog U angular_parser commits = Ok changes
       /\ mutations run.2
            `prefix_of` release_script next_version
                          (markdown_changelog U next_version changes true) repo
       /\ forall a, run.1 = Run.Returned a ->
            mutations run.2
            = release_script next_version
                (markdown_changelog U next_version changes true) repo.
Proof.
  intros run. unfold run. rewrite main_unfold.
  pose proof (gather_quiet_trace U w) as Hq.
  destruct (Run.gather U w []) as [[[[current_version repo] commits]|n|e] tr] eqn:Hgather;
    simpl in Hq; [|left; by apply mutations_quiet..].
  destruct (le_gt_dec (length commits) 100) as [Hcap|Hmany].
  - destruct (evaluate_version_bump LEVELS angular_parser commits)
      as [bump printed] eqn:Heval.
    rewrite (release_under_cap _ _ _ _ _ _ _ _ bump printed tr Hcap Heval).
    assert (Hq1 : forall line, mutations (tr ++ map Run.Print printed ++ [Run.Print line]) = []).
    { intros line. apply mutations_quiet. apply Forall_app. split; [done|].
      apply Forall_app. split; [apply quiet_prints | by repeat constructor]. }
    destruct bump as [label|]; cbv beta iota zeta.
    + destruct (get_new_version current_version label) as [next_version|e] eqn:Hnext.
      * destruct (generate_changelog U angular_parser commits) as [changes|e] eqn:Hlog.
        -- right.
           exists current_version, repo, commits, tr, label, printed, next_version, changes.
           split_and!; try done.
           ++ destruct (publish_performs w repo next_version
                          (markdown_changelog U next_version changes true)
                          ((tr ++ map Run.Print printed ++ [Run.Print ("bump: " +:+ label)])
                             ++ [Run.Print ("next version: " +:+ next_version)]))
                as (evs & Htr & Hpre & _).
              cbn [snd fst] in *. rewrite Htr.
              rewrite (mutations_app _ evs), (mutations_app _ [_]), Hq1. done.
           ++ intros a Ha.
              destruct (publish_performs w repo next_version
                          (markdown_changelog U next_version changes true)
                          ((tr ++ map Run.Print printed ++ [Run.Print ("bump: " +:+ label)])
                             ++ [Run.Print ("next version: " +:+ next_version)]))
                as (evs & Htr & _ & Hret).
              cbn [snd fst] in *. rewrite Htr.
              rewrite (mutations_app _ evs), (mutations_app _ [_]), Hq1.
              by apply (Hret a).
        -- left. cbn [snd fst]. rewrite mutations_app, Hq1. done.
      * left. cbn [snd fst]. apply Hq1.
    + left. cbn [snd fst].
      apply mutations_quiet. apply Forall_app. split; [done|].
      apply Forall_app. split; [apply quiet_prints | by repeat constructor].
  - left. unfold Run.release.
    replace (100 <? length commits)%nat with true
      by (symmetry; apply Nat.ltb_lt; lia).
    simpl. apply mutations_quiet. apply Forall_app. split; [done|].
    by repeat constructor.
Qed.

(** The complete release of a feature commit, of which [main] makes all six
    mutations. *)
Example main_mutations_complete :
  mutations (Run.main Sample.U Sample.LEVELS Sample.p Sample.get_new_version (Sample.world 1) []).2
  = release_script "1.3.0"
      ("## v1.3.0" +:+ nl +:+ nl +:+ "### Feature" +:+ nl
       +:+ "* Add login (0123456789abcdef)" +:+ nl)
      "acts/rt".
Proof. vm_compute. reflexivity. Qed.

(** X11. When the collection ends under the cap and the evaluator gives a
    bump, a failure of [get_new_version], or of the changelog builder after
    it, ends the run in that exception with exit status 1 and before any
    mutation. *)
Theorem main_failed_preparation (U : Py.Unicode) (LEVELS : gmap Z string)
    (angular_parser : parser)
    (get_new_version : string -> string -> res string) (w : Run.World)
    (current_version repo bump : string) (commits : list Commit)
    (printed : list string) (tr : list Run.event) (e : exn) :
  Run.gather U w [] = (Run.Returned (current_version, repo, commits), tr) ->
  (length commits <= 100)%nat ->
  evaluate_version_bump LEVELS angular_parser commits = (Some bump, printed) ->
  get_new_version current_version bump = Raise e
  \/ (exists next_version,
        get_new_version current_version bump = Ok next_version
        /\ generate_changelog U angular_parser commits = Raise e) ->
  let run := Run.main U LEVELS angular_parser get_new_version w [] in
  run.1 = Run.Uncaught e
  /\ Run.exit_status run.1 = 1%Z
  /\ Forall (fun e => Run.is_mutation e = false) run.2.
Proof.
  intros Hgather Hcap Heval Hfail run. unfold run.
  rewrite main_unfold, Hgather.
  rewrite (release_under_cap _ _ _ _ _ _ _ _ (Some bump) printed tr Hcap Heval).
  pose proof (gather_quiet_trace U w) as Hq. rewrite Hgather in Hq. simpl in Hq.
  assert (Hq1 : forall line,
            Forall (fun e => Run.is_mutation e = false)
              (tr ++ map Run.Print printed ++ [Run.Print line])).
  { intros line. apply Forall_app. split; [done|].
    apply Forall_app. split; [apply quiet_prints | by repeat constructor]. }
  simpl. destruct Hfail as [->|(next_version & -> & ->)]; simpl.
  - split_and!; [done..|]. apply Hq1.
  - split_and!; [done..|]. apply Forall_app. split; [apply Hq1|].
    by repeat constructor.
Qed.

Lemma main_failed_preparation_witness :
  let run := Run.main Sample.U Sample.LEVELS Sample.p SampleRun.next_version
               SampleRun.world_blank [] in
  run.1 = Run.Uncaught IndexError
  /\ Run.exit_status run.1 = 1%Z
  /\ Forall (fun e => Run.is_mutation e = false) run.2.
Proof.
  refine (main_failed_preparation Sample.U Sample.LEVELS Sample.p SampleRun.next_version
            SampleRun.world_blank "1.2.3" "acts/rt" "patch"
            [Commit__init__ "b8" "fix: "] []
            (Run.gather Sample.U SampleRun.world_blank []).2 IndexError _ _ _ _).
  - vm_compute. reflexivity.
  - simpl. lia.
  - vm_compute. reflexivity.
  - right. exists "1.2.4". split; reflexivity.
Defined.

(** X8. When the collection ends under the cap, the evaluator gives a bump,
    the next version is computed, the changelog is built, the four git
    commands succeed, and each of the five listings of tags succeeds without
    showing the new tag, [main] sleeps after each listing and then posts the
    release all the same: the wait does not hold the release back. The run
    returns when the forge accepts the release and ends in the exception of
    the forge otherwise. *)
Theorem main_release_unseen_tag (U : Py.Unicode) (LEVELS : gmap Z string)
    (angular_parser : parser)
    (get_new_version : string -> string -> res string) (w : Run.World)
    (current_version repo bump next_version : string) (commits : list Commit)
    (printed : list string) (changes : changelog) (tr : list Run.event) :
  Run.gather U w [] = (Run.Returned (current_version, repo, commits), tr) ->
  (length commits <= 100)%nat ->
  evaluate_version_bump LEVELS angular_parser commits = (Some bump, printed) ->
  get_new_version current_version bump = Ok next_version ->
  generate_changelog U angular_parser commits = Ok changes ->
  is_Some (Run.git_output w ["add"; "version_number"]) ->
  is_Some (Run.git_output w ["commit"; "-m"; "Bump to version " +:+ "v" +:+ next_version]) ->
  is_Some (Run.git_output w ["tag"; "v" +:+ next_version]) ->
  is_Some (Run.git_output w ["push"; "--follow-tags"]) ->
  (forall j, (j < 5)%nat ->
     exists tags, Run.forge_tags w j ("/repos/" +:+ repo +:+ "/tags") = Some tags
                  /\ "v" +:+ next_version ∉ tags) ->
  Run.main U LEVELS angular_parser get_new_version w []
  = (if Run.forge_accepts_release w then Run.Returned tt
     else Run.Uncaught HTTPException,
     tr ++ map Run.Print printed
        ++ [Run.Print ("bump: " +:+ bump);
            Run.Print ("next version: " +:+ next_version);
            Run.Print (markdown_changelog U next_version changes true);
            Run.WriteText "version_number" next_version;
            Run.GitCmd ["add"; "version_number"];
            Run.GitCmd ["commit"; "-m"; "Bump to version " +:+ "v" +:+ next_version];
            Run.GitCmd ["tag"; "v" +:+ next_version];
            Run.GitCmd ["push"; "--follow-tags"]]
        ++ concat (replicate 5 [Run.GhGet ("/repos/" +:+ repo +:+ "/tags"); Run.Sleep])
        ++ [Run.GhPost ("/repos/" +:+ repo +:+ "/releases")
              (markdown_changelog U next_version changes true)
              ("v" +:+ next_version)]).
Proof.
  intros Hgather Hcap Heval Hnext Hlog [o1 Hadd] [o2 Hcommit] [o3 Htag] [o4 Hpush]
    Hunseen.
  rewrite main_unfold, Hgather.
  rewrite (release_under_cap _ _ _ _ _ _ _ _ (Some bump) printed tr Hcap Heval).
  cbv beta iota zeta. rewrite Hnext, Hlog.
  unfold mbind, Run.M_bind, Run.m_bind, Run.print, Run.write_text, Run.git,
    Run.emit, Run.answer, mret, Run.M_ret, Run.m_ret.
  rewrite Hadd, Hcommit, Htag, Hpush.
  unfold mbind, Run.M_bind, Run.m_bind. cbv beta iota zeta.
  rewrite (await_tag_unseen_all w repo ("v" +:+ next_version) 5 _ Hunseen).
  destruct (Run.forge_accepts_release w); unfold Run.raise;
    rewrite <- !app_assoc; reflexivity.
Qed.

Lemma main_release_unseen_tag_witness :
  Run.main Sample.U Sample.LEVELS Sample.p SampleRun.next_version
    SampleRun.world_unseen []
  = (Run.Returned tt,
     (Run.gather Sample.U SampleRun.world_unseen []).2
        ++ map Run.Print []
        ++ [Run.Print ("bump: " +:+ "minor");
            Run.Print ("next version: " +:+ "1.3.0");
            Run.Print (markdown_changelog Sample.U "1.3.0"
                         [("breaking", []); ("feature", [("a1", "Add login")])] true);
            Run.WriteText "version_number" "1.3.0";
            Run.GitCmd ["add"; "version_number"];
            Run.GitCmd ["commit"; "-m"; "Bump to version " +:+ "v" +:+ "1.3.0"];
            Run.GitCmd ["tag"; "v" +:+ "1.3.0"];
            Run.GitCmd ["push"; "--follow-tags"]]
        ++ concat (replicate 5 [Run.GhGet ("/repos/" +:+ "acts/rt" +:+ "/tags"); Run.Sleep])
        ++ [Run.GhPost ("/repos/" +:+ "acts/rt" +:+ "/releases")
              (markdown_changelog Sample.U "1.3.0"
                 [("breaking", []); ("feature", [("a1", "Add login")])] true)
              ("v" +:+ "1.3.0")]).
Proof.
  refine (main_release_unseen_tag Sample.U Sample.LEVELS Sample.p
            SampleRun.next_version SampleRun.world_unseen "1.2.3" "acts/rt"
            "minor" "1.3.0" [Commit__init__ "a1" "feat: add login"] []
            [("breaking", []); ("feature", [("a1", "Add login")])]
            (Run.gather Sample.U SampleRun.world_unseen []).2
            _ _ _ _ _ _ _ _ _ _).
  - vm_compute. reflexivity.
  - simpl. lia.
  - vm_compute. reflexivity.
  - reflexivity.
  - reflexivity.
  - by eexists.
  - by eexists.
  - by eexists.
  - by eexists.
  - intros j Hj. exists ["v1.2.3"]. split; [reflexivity|].
    apply not_elem_of_cons. split; [done|apply not_elem_of_nil].
Defined.

(** ** More on the changelog builder *)

Lemma changelog_add_no_summary (U : Py.Unicode) (ch : changelog) c m :
  has_summary m = false -> changelog_add U ch c m = Raise IndexError.
Proof.
  unfold changelog_add, has_summary.
  destruct (descriptions m) as [|[|a r] ds]; simpl; done.
Qed.

Lemma for_each_step_outcome (U : Py.Unicode) (p : parser) (commits : list Commit) (ch : changelog) :
  is_Some (Dict.get "breaking" ch) ->
  (exists ch', for_each (changelog_step U p) commits ch = Ok ch')
  \/ (for_each (changelog_step U p) commits ch = Raise IndexError
      /\ exists c m, c ∈ commits /\ p (message c) = Some m /\ has_summary m = false).
Proof.
  revert ch. induction commits as [|c cs IH]; intros ch Hb.
  - left. by exists ch.
  - rewrite for_each_cons.
    destruct (p (message c)) as [m|] eqn:Hm.
    + rewrite (changelog_step_parsed U p _ _ _ Hm).
      destruct (has_summary m) eqn:Hsum.
      * destruct (changelog_add_spec U ch c m Hsum Hb) as (ch1 & Hadd & _).
        rewrite Hadd, bind_ok.
        destruct (IH ch1) as [Hok|(Hraise & c' & m' & Hc' & Hm' & Hs')].
        { eapply changelog_add_keeps_breaking; eauto. }
        -- by left.
        -- right. split; [done|]. exists c', m'. split_and!; [by right|done..].
      * right. rewrite (changelog_add_no_summary U _ _ _ Hsum). split; [done|].
        exists c, m. split_and!; [left|done..].
    + rewrite (changelog_step_skipped U p _ _ Hm), bind_ok.
      destruct (IH ch Hb) as [Hok|(Hraise & c' & m' & Hc' & Hm' & Hs')].
      * by left.
      * right. split; [done|]. exists c', m'. split_and!; [by right|done..].
Qed.

(** X12. The builder either returns a changelog, and then every parsed
    commit has a non-empty first description, or raises an [IndexError], and
    then some parsed commit has none; no other exception leaves it. *)
Theorem generate_changelog_outcome (U : Py.Unicode) (p : parser) (commits : list Commit) :
  (exists ch, generate_changelog U p commits = Ok ch
     /\ forall c m, c ∈ commits -> p (message c) = Some m -> has_summary m = true)
  \/ (generate_changelog U p commits = Raise IndexError
      /\ exists c m, c ∈ commits /\ p (message c) = Some m /\ has_summary m = false).
Proof.
  destruct (for_each_step_outcome U p commits [("breaking", [])] (initial_breaking))
    as [[ch Hok]|Hbad].
  - left. exists ch. split; [done|]. by eapply generate_changelog_ok.
  - by right.
Qed.

(** ** The order of the keys *)

Lemma keys_set {V} (k : string) (v : V) (d : Dict.t V) :
  Dict.keys (Dict.set k v d)
  = if decide (k ∈ Dict.keys d) then Dict.keys d else Dict.keys d ++ [k].
Proof.
  unfold Dict.keys. induction d as [|[k' v'] d IH]; simpl.
  - done.
  - destruct (String.eqb_spec k k') as [->|Hne]; simpl.
    + by rewrite decide_True by left.
    + rewrite IH. destruct (decide (k ∈ map fst d)) as [Hin|Hnin].
      * by rewrite decide_True by (by right).
      * by rewrite decide_False by (intros [?|?]%elem_of_cons; done).
Qed.

Lemma keys_append {A} (k : string) (x : A) (d d' : Dict.t (list A)) :
  Dict.append k x d = Ok d' -> Dict.keys d' = Dict.keys d.
Proof.
  unfold Dict.append. destruct (Dict.get k d) as [l|] eqn:Hk; [|done].
  intros [= <-]. rewrite keys_set, decide_True; [done|].
  apply get_keys. eauto.
Qed.

Lemma bind_ok_inv {A B} (m : res A) (k : A -> res B) (b : B) :
  (m ≫= k) = Ok b -> exists a, m = Ok a /\ k a = Ok b.
Proof. destruct m as [a|e]; [|done]. intros H. by exists a. Qed.

Lemma keys_for_each_append {A B} (k : string) (f : B -> A) (xs : list B)
    (d d' : Dict.t (list A)) :
  for_each (fun d x => Dict.append k (f x) d) xs d = Ok d' ->
  Dict.keys d' = Dict.keys d.
Proof.
  revert d. induction xs as [|x xs IH]; intros d; simpl.
  - by intros [= <-].
  - intros (d1 & H1 & Hrest)%bind_ok_inv.
    rewrite (IH _ Hrest). by eapply keys_append.
Qed.

Lemma changelog_add_keys (U : Py.Unicode) (ch ch' : changelog) c m :
  changelog_add U ch c m = Ok ch' ->
  Dict.keys ch'
  = if decide (type m ∈ Dict.keys ch) then Dict.keys ch
    else Dict.keys ch ++ [type m].
Proof.
  unfold changelog_add.
  set (ch1 := if negb (Dict.mem (type m) ch) then Dict.set (type m) [] ch else ch).
  assert (H1 : Dict.keys ch1
               = if decide (type m ∈ Dict.keys ch) then Dict.keys ch
                 else Dict.keys ch ++ [type m]).
  { unfold ch1. rewrite mem_get.
    destruct (decide (type m ∈ Dict.keys ch)) as [Hin|Hnin].
    - rewrite bool_decide_eq_true_2 by by apply get_keys. done.
    - rewrite bool_decide_eq_false_2 by by rewrite get_keys.
      simpl. by rewrite keys_set, decide_False. }
  intros (d0 & _ & H)%bind_ok_inv.
  apply bind_ok_inv in H as (c0 & _ & H).
  apply bind_ok_inv in H as (ch2 & H2 & H).
  trans (Dict.keys ch2); [|by rewrite (keys_append _ _ _ _ H2)].
  destruct (breaking_descriptions m) as [|b bs].
  - destruct (bump m =? 3)%Z.
    + apply bind_ok_inv in H as (d & _ & H). by eapply keys_append.
    + by injection H as <-.
  - by eapply keys_for_each_append.
Qed.

Lemma for_each_step_keys (U : Py.Unicode) (p : parser) (commits : list Commit) (ch ch' : changelog) :
  for_each (changelog_step U p) commits ch = Ok ch' ->
  Dict.keys ch'
  = foldl (fun acc k => if decide (k ∈ acc) then acc else acc ++ [k])
      (Dict.keys ch) (parsed_types p commits).
Proof.
  revert ch. induction commits as [|c cs IH]; intros ch.
  - simpl. by intros [= <-].
  - rewrite for_each_cons, parsed_types_cons.
    intros (ch1 & Hstep & Hrest)%bind_ok_inv.
    rewrite (IH _ Hrest).
    destruct (p (message c)) as [m|] eqn:Hm.
    + rewrite (changelog_step_parsed U p _ _ _ Hm) in Hstep.
      simpl. by rewrite (changelog_add_keys U _ _ _ _ Hstep).
    + rewrite (changelog_step_skipped U p _ _ Hm) in Hstep. by injection Hstep as <-.
Qed.

Lemma first_seen_nodup (acc l : list string) :
  NoDup acc ->
  NoDup (foldl (fun acc k => if decide (k ∈ acc) then acc else acc ++ [k]) acc l).
Proof.
  revert acc. induction l as [|k l IH]; intros acc Hacc; simpl; [done|].
  apply IH. case_decide; [done|].
  apply NoDup_app. split_and!; [done| |apply NoDup_singleton].
  intros x Hx ->%list_elem_of_singleton. done.
Qed.

Lemma first_seen_prefix (acc l : list string) :
  acc `prefix_of` foldl (fun acc k => if decide (k ∈ acc) then acc else acc ++ [k]) acc l.
Proof.
  revert acc. induction l as [|k l IH]; intros acc; simpl; [done|].
  etrans; [|apply IH]. case_decide; [done|]. by apply prefix_app_r.
Qed.

Lemma first_seen_elem (acc l : list string) (k : string) :
  k ∈ foldl (fun acc k => if decide (k ∈ acc) then acc else acc ++ [k]) acc l
  <-> k ∈ acc \/ k ∈ l.
Proof.
  revert acc. induction l as [|x l IH]; intros acc; simpl.
  - rewrite elem_of_nil. tauto.
  - rewrite IH, elem_of_cons. case_decide as Hx.
    + split; [tauto|]. intros [?|[->|?]]; tauto.
    + rewrite elem_of_app, list_elem_of_singleton. tauto.
Qed.

(** X13. The keys of a returned changelog are "breaking" first and then the
    types of the parsed commits in the order of their first occurrence, each
    key once. *)
Theorem generate_changelog_key_order (U : Py.Unicode) (p : parser) (commits : list Commit)
    (ch : changelog) :
  generate_changelog U p commits = Ok ch ->
  Dict.keys ch
  = foldl (fun acc k => if decide (k ∈ acc) then acc else acc ++ [k])
      ["breaking"] (parsed_types p commits)
  /\ NoDup (Dict.keys ch)
  /\ head (Dict.keys ch) = Some "breaking"
  /\ forall k, k ∈ Dict.keys ch <-> k = "breaking" \/ k ∈ parsed_types p commits.
Proof.
  intros Hrun. pose proof (for_each_step_keys U p commits _ _ Hrun) as Hkeys.
  change (Dict.keys [("breaking", @nil entry)]) with ["breaking"] in Hkeys.
  rewrite Hkeys. split_and!.
  - done.
  - apply first_seen_nodup, NoDup_singleton.
  - destruct (first_seen_prefix ["breaking"] (parsed_types p commits)) as [rest ->].
    done.
  - intros k. rewrite first_seen_elem, list_elem_of_singleton. done.
Qed.

Lemma generate_changelog_key_order_witness :
  Dict.keys [("breaking", [("e5", "old API removed")]);
             ("fix", [("b2", "Typo"); ("b2", "Typo")]);
             ("feature", [("e5", "Remove old API"); ("a1", "Add login")])]
  = foldl (fun acc k => if decide (k ∈ acc) then acc else acc ++ [k])
      ["breaking"]
      (parsed_types Sample.p
         [Sample.c_fix; Sample.c_trailer; Sample.c_merge; Sample.c_fix; Sample.c_feat])
  /\ NoDup ["breaking"; "fix"; "feature"]
  /\ head ["breaking"; "fix"; "feature"] = Some "breaking"
  /\ forall k, k ∈ ["breaking"; "fix"; "feature"]
       <-> k = "breaking"
           \/ k ∈ parsed_types Sample.p
                [Sample.c_fix; Sample.c_trailer; Sample.c_merge; Sample.c_fix; Sample.c_feat].
Proof.
  exact (generate_changelog_key_order Sample.U Sample.p
           [Sample.c_fix; Sample.c_trailer; Sample.c_merge; Sample.c_fix; Sample.c_feat]
           _ eq_refl).
Defined.

(** ** The entries of each key *)

Lemma all_additions_type (U : Py.Unicode) (p : parser) (k : string) (commits : list Commit) :
  k <> "breaking" ->
  all_additions U p k commits
  = omap (fun c => m ← p (message c);
                   if decide (type m = k) then Some (sha c, capitalized U m) else None)
      commits.
Proof.
  intros Hk. induction commits as [|c cs IH]; [done|].
  rewrite all_additions_cons, IH. simpl.
  destruct (p (message c)) as [m|]; simpl; [|done].
  unfold additions. rewrite (decide_False (P := k = "breaking")) by done.
  destruct (decide (type m = k)) as [<-|Hne].
  - by rewrite decide_True.
  - by rewrite decide_False by congruence.
Qed.

(** X14. In a returned changelog the list of a type other than "breaking"
    holds, in the order of the commits, one capitalized entry for each parsed
    commit of that type and nothing else; the list of "breaking" holds, in
    the order of the commits, what each parsed commit adds to it. The
    capitalized entry of a commit is its first description with the first
    character upper-cased and the rest unchanged. *)
Theorem generate_changelog_entries (U : Py.Unicode) (p : parser)
    (commits : list Commit) (ch : changelog) :
  generate_changelog U p commits = Ok ch ->
  (forall k, k <> "breaking" -> k ∈ parsed_types p commits ->
     Dict.get k ch
     = Some (omap (fun c => m ← p (message c);
                            if decide (type m = k)
                            then Some (sha c, capitalized U m) else None)
               commits))
  /\ (forall k, k <> "breaking" -> k ∉ parsed_types p commits ->
        Dict.get k ch = None)
  /\ Dict.get "breaking" ch
     = Some (flat_map
               (fun c => match p (message c) with
                         | Some m =>
                             (if decide ("breaking" = type m)
                              then [(sha c, capitalized U m)] else [])
                             ++ breaking_entries c m
                         | None => []
                         end)
               commits)
  /\ (forall c m d ds,
        c ∈ commits -> p (message c) = Some m -> descriptions m = d :: ds ->
        capitalized U m = Py.str_upper U (Py.first_char d) +:+ Py.str_tail d).
Proof.
  intros Hrun.
  pose proof (generate_changelog_ok U p commits ch Hrun) as Hsum.
  destruct (generate_changelog_spec U p commits Hsum)
    as (ch' & Hrun' & Hb & Hother).
  rewrite Hrun in Hrun'. injection Hrun' as <-. split_and!.
  - intros k Hk Hin. rewrite Hother, decide_True by done.
    by rewrite all_additions_type.
  - intros k Hk Hnin. by rewrite Hother, decide_False.
  - rewrite Hb. unfold all_additions. f_equal.
  - intros c m d ds Hc Hm Hd. pose proof (Hsum c m Hc Hm) as Hs.
    unfold has_summary in Hs. unfold capitalized. rewrite Hd in *. by destruct d.
Qed.

Lemma generate_changelog_entries_witness :
  let commits := [Sample.c_fix; Sample.c_bang; Sample.c_merge; Sample.c_trailer] in
  let ch := [("breaking", [("d4", "remove old API"); ("e5", "old API removed")]);
             ("fix", [("b2", "Typo")]);
             ("feature", [("d4", "Remove old API"); ("e5", "Remove old API")])] in
  (forall k, k <> "breaking" -> k ∈ parsed_types Sample.p commits ->
     Dict.get k ch
     = Some (omap (fun c => m ← Sample.p (message c);
                            if decide (type m = k)
                            then Some (sha c, capitalized Sample.U m) else None)
               commits))
  /\ (forall k, k <> "breaking" -> k ∉ parsed_types Sample.p commits ->
        Dict.get k ch = None)
  /\ Dict.get "breaking" ch
     = Some (flat_map
               (fun c => match Sample.p (message c) with
                         | Some m =>
                             (if decide ("breaking" = type m)
                              then [(sha c, capitalized Sample.U m)] else [])
                             ++ breaking_entries c m
                         | None => []
                         end)
               commits)
  /\ (forall c m d ds,
        c ∈ commits -> Sample.p (message c) = Some m -> descriptions m = d :: ds ->
        capitalized Sample.U m
        = Py.str_upper Sample.U (Py.first_char d) +:+ Py.str_tail d).
Proof.
  exact (generate_changelog_entries Sample.U Sample.p
           [Sample.c_fix; Sample.c_bang; Sample.c_merge; Sample.c_trailer] _ eq_refl).
Defined.

(** ** Commits the parser rejects *)

Lemma parsed_bumps_cons (p : parser) c (cs : list Commit) :
  parsed_bumps p (c :: cs) =
    match p (message c) with
    | Some m => bump m :: parsed_bumps p cs
    | None => parsed_bumps p cs
    end.
Proof. unfold parsed_bumps. simpl. by destruct (p (message c)). Qed.

Lemma parsed_bumps_filter (p : parser) (commits : list Commit) :
  parsed_bumps p (filter (fun c => is_Some (p (message c))) commits)
  = parsed_bumps p commits.
Proof.
  induction commits as [|c cs IH]; [done|].
  rewrite filter_cons. destruct (p (message c)) as [m|] eqn:Hm.
  - rewrite decide_True by eauto. by rewrite !parsed_bumps_cons, Hm, IH.
  - rewrite decide_False by (by intros [? ?]). by rewrite parsed_bumps_cons, Hm.
Qed.

Lemma for_each_step_filter (U : Py.Unicode) (p : parser) (commits : list Commit) (ch : changelog) :
  for_each (changelog_step U p) (filter (fun c => is_Some (p (message c))) commits) ch
  = for_each (changelog_step U p) commits ch.
Proof.
  revert ch. induction commits as [|c cs IH]; intros ch; [done|].
  rewrite filter_cons. destruct (p (message c)) as [m|] eqn:Hm.
  - rewrite decide_True by eauto. rewrite !for_each_cons.
    destruct (changelog_step U p ch c) as [ch1|e]; [|done].
    rewrite !bind_ok. apply IH.
  - rewrite decide_False by (by intros [? ?]).
    rewrite for_each_cons, (changelog_step_skipped U p _ _ Hm), bind_ok. apply IH.
Qed.

(** X15. Commits the parser rejects are passed over: dropping them from the
    sequence changes neither the bump and the lines the evaluator prints nor
    the result of the changelog builder. *)
Theorem unrecognized_commits_ignored (U : Py.Unicode) (LEVELS : gmap Z string) (p : parser)
    (commits : list Commit) :
  evaluate_version_bump LEVELS p (filter (fun c => is_Some (p (message c))) commits)
  = evaluate_version_bump LEVELS p commits
  /\ generate_changelog U p (filter (fun c => is_Some (p (message c))) commits)
     = generate_changelog U p commits.
Proof.
  split.
  - by rewrite !evaluate_unfold, parsed_bumps_filter.
  - apply for_each_step_filter.
Qed.

Example unrecognized_commits_example :
  filter (fun c => is_Some (Sample.p (message c)))
    [Sample.c_merge; Sample.c_fix; Sample.c_merge; Sample.c_feat]
  = [Sample.c_fix; Sample.c_feat].
Proof. reflexivity. Qed.

(** ** Growing sequences *)

(** X16. When the builder returns a changelog for a sequence, it returns one
    for every initial part of the sequence, and each list of the longer
    changelog extends the list of the same key in the shorter: entries are
    appended, never removed or replaced. *)
Theorem generate_changelog_extends (U : Py.Unicode) (p : parser) (commits more : list Commit)
    (ch : changelog) :
  generate_changelog U p (commits ++ more) = Ok ch ->
  exists ch0,
    generate_changelog U p commits = Ok ch0
    /\ forall k l0, Dict.get k ch0 = Some l0 ->
         exists l1, Dict.get k ch = Some (l0 ++ l1).
Proof.
  unfold generate_changelog. rewrite for_each_app.
  intros (ch0 & Hrun0 & Hrun1)%bind_ok_inv.
  exists ch0. split; [done|]. intros k l0 Hk.
  destruct (for_each_step_spec U p more ch0) as (ch' & Hrun' & Hget).
  { by eapply generate_changelog_has_breaking. }
  { by eapply for_each_step_ok. }
  rewrite Hrun1 in Hrun'. injection Hrun' as <-.
  rewrite Hget, Hk. case_decide; simpl; eauto.
Qed.

Lemma generate_changelog_extends_witness :
  exists ch0,
    generate_changelog Sample.U Sample.p [Sample.c_fix; Sample.c_bang] = Ok ch0
    /\ forall k l0, Dict.get k ch0 = Some l0 ->
         exists l1,
           Dict.get k
             [("breaking", [("d4", "remove old API"); ("e5", "old API removed")]);
              ("fix", [("b2", "Typo")]);
              ("feature", [("d4", "Remove old API"); ("e5", "Remove old API")])]
           = Some (l0 ++ l1).
Proof.
  exact (generate_changelog_extends Sample.U Sample.p [Sample.c_fix; Sample.c_bang]
           [Sample.c_trailer] _ eq_refl).
Defined.

(** ** More on the renderer and the evaluator *)

(** X17. The text of a dictionary is the text of its first part, with the
    version line if asked for, followed by the text of the rest without a
    version line; a dictionary whose keys all have no entry renders as the
    version line alone, or as nothing. *)
Theorem markdown_changelog_app (U : Py.Unicode) (version : string)
    (dict more : changelog) (header : bool) :
  markdown_changelog U version (dict ++ more) header
  = markdown_changelog U version dict header +:+ markdown_changelog U version more false
  /\ (Forall (fun kv : string * list entry => kv.2 = []) dict ->
      markdown_changelog U version dict header
      = if header then "## v" +:+ version +:+ nl else EmptyString).
Proof.
  unfold markdown_changelog. split.
  - rewrite fold_left_app.
    rewrite (render_sections_spec U more), (render_sections_spec U more EmptyString).
    by rewrite str_app_nil_l.
  - generalize (if header then "## v" +:+ version +:+ nl else EmptyString).
    intros output Hempty. revert output.
    induction Hempty as [|[key items] dict Hitems _ IH]; intros output; [done|].
    simpl in Hitems. subst items. simpl. apply IH.
Qed.

Example markdown_changelog_app_example :
  markdown_changelog Sample.U "1.3.0"
    ([("breaking", []); ("fix", [("b2", "Typo")])] ++ [("feature", [("a1", "Add login")])])
    true
  = ("## v1.3.0" +:+ nl +:+ nl +:+ "### Fix" +:+ nl +:+ "* Typo (b2)" +:+ nl)
    +:+ (nl +:+ "### Feature" +:+ nl +:+ "* Add login (a1)" +:+ nl).
Proof. reflexivity. Qed.

(** X18. Commits added at the end that carry no severity above that of a
    parsed commit already in the sequence change neither the bump nor the
    lines the evaluator prints. *)
Theorem evaluate_version_bump_dominated (LEVELS : gmap Z string) (p : parser)
    (commits more : list Commit) (c : Commit) (m : ParsedCommit) :
  c ∈ commits -> p (message c) = Some m ->
  (forall c' m', c' ∈ commits ++ more -> p (message c') = Some m' ->
     (bump m' <= bump m)%Z) ->
  evaluate_version_bump LEVELS p (commits ++ more)
  = evaluate_version_bump LEVELS p commits.
Proof.
  intros Hc Hm Hmax.
  rewrite (evaluate_at_maximum LEVELS p (commits ++ more) c m);
    [|apply elem_of_app; by left|done|done].
  rewrite (evaluate_at_maximum LEVELS p commits c m); [done..|].
  intros c' m' Hc'. apply Hmax. apply elem_of_app. by left.
Qed.

Lemma evaluate_version_bump_dominated_witness :
  evaluate_version_bump Sample.LEVELS Sample.p
    ([Sample.c_fix; Sample.c_feat] ++ [Sample.c_chore; Sample.c_fix; Sample.c_merge])
  = evaluate_version_bump Sample.LEVELS Sample.p [Sample.c_fix; Sample.c_feat].
Proof.
  apply (evaluate_version_bump_dominated Sample.LEVELS Sample.p
           [Sample.c_fix; Sample.c_feat]
           [Sample.c_chore; Sample.c_fix; Sample.c_merge]
           Sample.c_feat Sample.feat).
  - right; left.
  - reflexivity.
  - apply sample_parsed_bound. reflexivity.
Defined.

(** ** The reads of a run *)

Lemma chars_upto_ascii (s : string) (fuel : nat) :
  ascii_only s = true -> (String.length s <= fuel)%nat ->
  Py.chars_upto fuel s
  = map (fun b => String b EmptyString) (list_ascii_of_string s).
Proof.
  revert fuel. induction s as [|b s IH]; intros fuel Hs Hlen.
  - by destruct fuel.
  - destruct fuel as [|fuel]; [simpl in Hlen; lia|].
    unfold ascii_only in Hs. simpl in Hs. apply andb_true_iff in Hs as [Hb Hs].
    change (Py.chars_upto (S fuel) (String b s))
      with (Py.first_char (String b s) :: Py.chars_upto fuel (Py.str_tail (String b s))).
    rewrite (first_char_ascii b s Hb), (str_tail_ascii b s Hb), IH; [done..|].
    simpl in Hlen. lia.
Qed.

Lemma list_ascii_app (a b : string) :
  list_ascii_of_string (a +:+ b) = list_ascii_of_string a ++ list_ascii_of_string b.
Proof.
  induction a as [|x a IH]; [done|]. rewrite str_app_cons. simpl. by rewrite IH.
Qed.

Lemma str_concat_singletons (s : string) :
  Py.str_concat (map (fun b => String b EmptyString) (list_ascii_of_string s)) = s.
Proof. induction s as [|b s IH]; [done|]. simpl. by rewrite IH. Qed.

Lemma singletons_forall (P : string -> Prop) (Q : ascii -> bool) (s : string) :
  forallb Q (list_ascii_of_string s) = true ->
  (forall b, Q b = true -> P (String b EmptyString)) ->
  Forall P (map (fun b => String b EmptyString) (list_ascii_of_string s)).
Proof.
  intros Hs HQ. induction s as [|b s IH]; [constructor|].
  simpl in Hs. apply andb_true_iff in Hs as [Hb Hs]. simpl. constructor; auto.
Qed.

Lemma drop_while_all {A} (f : A -> bool) (l k : list A) :
  Forall (fun x => f x = true) l -> Py.drop_while f (l ++ k) = Py.drop_while f k.
Proof. induction 1 as [|x l Hx _ IH]; [done|]. simpl. by rewrite Hx. Qed.

Lemma drop_while_none {A} (f : A -> bool) (l : list A) :
  Forall (fun x => f x = false) l -> Py.drop_while f l = l.
Proof. destruct 1 as [|x l Hx _]; [done|]. simpl. by rewrite Hx. Qed.

Lemma ascii_space_is_ascii (b : ascii) :
  Py.ascii_space b = true -> Py.is_ascii b = true.
Proof.
  unfold Py.ascii_space, Py.is_ascii. cbv zeta.
  intros [[_ H%Nat.leb_le]%andb_true_iff|[_ H%Nat.leb_le]%andb_true_iff]%orb_true_iff;
    apply Nat.ltb_lt; lia.
Qed.

(** Stripping a word of the ASCII range followed by ASCII whitespace gives
    the word. *)
Lemma strip_line (U : Py.Unicode) (h ws : string) :
  ascii_laws U -> ascii_word h = true -> ascii_blank ws = true ->
  Py.strip U (h +:+ ws) = h.
Proof.
  intros HU Hh Hws. unfold Py.strip, Py.chars.
  assert (Hascii : ascii_only (h +:+ ws) = true).
  { unfold ascii_only. rewrite list_ascii_app, forallb_app.
    apply andb_true_iff. split; apply forallb_forall; intros b Hb.
    - unfold ascii_word in Hh. rewrite forallb_forall in Hh.
      apply Hh in Hb. by apply andb_true_iff in Hb as [? _].
    - unfold ascii_blank in Hws. rewrite forallb_forall in Hws.
      by apply ascii_space_is_ascii, Hws. }
  rewrite (chars_upto_ascii _ _ Hascii (le_n _)), list_ascii_app, map_app.
  assert (HW : Forall (fun c => Py.is_whitespace U c = true)
                 (map (fun b => String b EmptyString) (list_ascii_of_string ws))).
  { apply (singletons_forall _ _ _ Hws). intros b Hb.
    by rewrite (whitespace_ascii U HU b (ascii_space_is_ascii b Hb)). }
  assert (HH : Forall (fun c => Py.is_whitespace U c = false)
                 (map (fun b => String b EmptyString) (list_ascii_of_string h))).
  { apply (singletons_forall _ _ _ Hh). intros b [Hb Hsp]%andb_true_iff.
    rewrite (whitespace_ascii U HU b Hb). by destruct (Py.ascii_space b). }
  destruct h as [|c h].
  - simpl app. rewrite <- (app_nil_r (map _ (list_ascii_of_string ws))).
    by rewrite (drop_while_all _ _ [] HW).
  - assert (Hc : Py.is_whitespace U (String c EmptyString) = false)
      by (by inversion HH).
    cbn [list_ascii_of_string map app] in *.
    cbn [Py.drop_while]. rewrite Hc.
    change (String c EmptyString :: ?l ++ ?k) with ((String c EmptyString :: l) ++ k).
    rewrite rev_app_distr, (drop_while_all _ _ _ (Forall_rev HW)).
    rewrite (drop_while_none _ _ (Forall_rev HH)), rev_involutive.
    apply (str_concat_singletons (String c h)).
Qed.

(** X19. When the token and the version file are there, the variable
    [GITHUB_REPOSITORY] is set, each of the two git reads prints a word of
    the ASCII range without whitespace followed by a newline, and the forge
    lists the commits with one of the sha of [git rev-list] among them, the
    first part of [main] makes nine reads and prints, then one print per
    commit listed before that one; it returns the text of the version file
    as it is, the repository, and the normalized commits listed before the
    tagged one; it names the tag by a v and the text of the version file,
    and asks the forge for the commits from the stripped output of
    [git rev-parse]. *)
Theorem gather_reads (U : Py.Unicode) (w : Run.World)
    (token current_version tag_hash head repo : string)
    (before after : list (string * string)) (tagged_message : string) :
  ascii_laws U ->
  Run.environ w !! "GH_TOKEN" = Some token ->
  Run.file_text w "version_number" = Some current_version ->
  Run.git_output w ["rev-list"; "-n"; "1"; "v" +:+ current_version]
    = Some (tag_hash +:+ nl) ->
  Run.git_output w ["rev-parse"; "HEAD"] = Some (head +:+ nl) ->
  ascii_word tag_hash = true -> ascii_word head = true ->
  Run.environ w !! "GITHUB_REPOSITORY" = Some repo ->
  Run.forge_items w ("/repos/" +:+ repo +:+ "/commits?sha=" +:+ head)
    = Some (before ++ (tag_hash, tagged_message) :: after) ->
  tag_hash ∉ before.*1 ->
  Run.gather U w []
  = (Run.Returned (current_version, repo,
                   map (fun item => Commit__init__ item.1 item.2) before),
     [Run.Getenv "GH_TOKEN";
      Run.ReadText "version_number";
      Run.GitCmd ["rev-list"; "-n"; "1"; "v" +:+ current_version];
      Run.Print ("current_version: " +:+ current_version
                 +:+ " [" +:+ Py.str_take 8 tag_hash +:+ "]");
      Run.GitCmd ["rev-parse"; "HEAD"];
      Run.Print ("sha: " +:+ head);
      Run.Getenv "GITHUB_REPOSITORY";
      Run.Print ("repo: " +:+ repo);
      Run.GhGet ("/repos/" +:+ repo +:+ "/commits?sha=" +:+ head)]
     ++ map (fun item =>
               Run.Print ("- " +:+ Run.Commit__str__ (Commit__init__ item.1 item.2)))
          before).
Proof.
  intros HU Htoken Hfile Hlist Hparse Htag Hhead Hrepo Hitems Hnot.
  unfold Run.gather, Run.environ_item, Run.read_text, Run.git, Run.print, Run.emit,
    Run.answer, mbind, mret, Run.M_bind, Run.M_ret, Run.m_bind, Run.m_ret.
  rewrite Htoken, Hfile, Hlist, Hparse.
  rewrite !(strip_line U) by done.
  rewrite get_repo_unfold, Hrepo, Hitems.
  rewrite (collect_prefix tag_hash before _ [] _ Hnot).
  cbn [Run.collect]. rewrite String.eqb_refl. reflexivity.
Qed.

Lemma gather_reads_witness :
  Run.gather Sample.U SampleRun.world_chore []
  = (Run.Returned ("1.2.3", "acts/rt",
                   map (fun item => Commit__init__ item.1 item.2)
                     [("c3", "chore: cleanup"); ("c9", "Merge branch 'main'")]),
     [Run.Getenv "GH_TOKEN";
      Run.ReadText "version_number";
      Run.GitCmd ["rev-list"; "-n"; "1"; "v" +:+ "1.2.3"];
      Run.Print ("current_version: " +:+ "1.2.3"
                 +:+ " [" +:+ Py.str_take 8 Sample.tag_hash +:+ "]");
      Run.GitCmd ["rev-parse"; "HEAD"];
      Run.Print ("sha: " +:+ Sample.head_hash);
      Run.Getenv "GITHUB_REPOSITORY";
      Run.Print ("repo: " +:+ "acts/rt");
      Run.GhGet ("/repos/" +:+ "acts/rt" +:+ "/commits?sha=" +:+ Sample.head_hash)]
     ++ map (fun item =>
               Run.Print ("- " +:+ Run.Commit__str__ (Commit__init__ item.1 item.2)))
          [("c3", "chore: cleanup"); ("c9", "Merge branch 'main'")]).
Proof.
  apply (gather_reads Sample.U SampleRun.world_chore "secret" "1.2.3" Sample.tag_hash
           Sample.head_hash "acts/rt"
           [("c3", "chore: cleanup"); ("c9", "Merge branch 'main'")] [] "old"
           sample_laws);
    try reflexivity.
  apply not_elem_of_cons. split; [done|]. apply not_elem_of_cons. split; [done|].
  apply not_elem_of_nil.
Defined.

(** X20. Without [GH_TOKEN] in the environment [main] ends in a [KeyError]
    having only looked the variable up; with the token and without the
    version file it ends in a [FileNotFoundError] after those two reads. *)
Theorem main_missing_input (U : Py.Unicode) (LEVELS : gmap Z string)
    (angular_parser : parser)
    (get_new_version : string -> string -> res string) (w : Run.World) :
  (Run.environ w !! "GH_TOKEN" = None ->
   Run.main U LEVELS angular_parser get_new_version w []
   = (Run.Uncaught KeyError, [Run.Getenv "GH_TOKEN"]))
  /\ (forall token,
        Run.environ w !! "GH_TOKEN" = Some token ->
        Run.file_text w "version_number" = None ->
        Run.main U LEVELS angular_parser get_new_version w []
        = (Run.Uncaught FileNotFoundError,
           [Run.Getenv "GH_TOKEN"; Run.ReadText "version_number"])).
Proof.
  split.
  - intros Htoken. rewrite main_unfold.
    unfold Run.gather, Run.environ_item, Run.emit, Run.answer,
      mbind, Run.M_bind, Run.m_bind.
    by rewrite Htoken.
  - intros token Htoken Hfile. rewrite main_unfold.
    unfold Run.gather, Run.environ_item, Run.read_text, Run.emit, Run.answer,
      mbind, mret, Run.M_bind, Run.M_ret, Run.m_bind, Run.m_ret.
    by rewrite Htoken, Hfile.
Qed.
